(** * praisonai_test: the mock resolver and the assertion library

    A shallow embedding of [src/praisonai_test/mocks.py] and
    [src/praisonai_test/assertions.py] (with [AgentTest.assert_similarity]
    of [agent_test.py]), and the properties the specification states
    about them; further, of [AgentTest.run_test] and the decorators of
    [agent_test.py], of the running of classes in [runner.py] and of the
    escaping and the Details cell of [reporter.py], with properties read
    off the code.

    Conventions of the embedding.
    - The code of a user (a matcher function, the setup, body and
      teardown of a test) and of a library other than [re] (the parsers
      of JSON, YAML and XML, the clock) is given by what a call of it
      returns or raises.
    - A Python [str] is a [string]; a character is a code point below 256,
      and the character tables ([str.lower], [str.isspace], the classes of
      [re]) are Python's own tables restricted to that range.
    - A Python [float] is a binary64 value of [SpecFloat].
    - A Python object of unknown type is a [pyval]; a [dict] used as a map
      is a [gmap string pyval].
    - A function that can raise returns a [result]; a method that mutates
      its object returns the new object next to its result. *)

From Stdlib Require Import ZArith NArith String Ascii List SpecFloat Lia DecimalString.
From stdpp Require Import gmap strings list.

Set Warnings "-register-all".
Set Default Proof Using "Type".

(** ** Python values *)

Inductive pyval :=
| PNone
| PBool (b : bool)
| PInt (z : Z)
| PFloat (f : spec_float)
| PStr (s : string)
| PList (l : list pyval)
| PDict (d : gmap string pyval).

(** An f-string, piece by piece: literal text, [{x:.2f}] and [{x}] for a
    float [x]. The decimal expansion of a float is not modelled. *)
Inductive piece :=
| Text (s : string)
| Fixed2 (x : spec_float)
| Shown (x : spec_float).

Definition message := list piece.

(** The exceptions of the embedding. [ReError] is the [re.error] that
    [re.compile] raises; [UserError] is whatever a matcher function of
    the user raises. [Unmodelled] is no exception of Python: it marks a
    call on a pattern outside the fragment of [Re], about which the
    embedding says nothing. *)
Inductive exn :=
| AssertionError (msg : message)
| ValueError (msg : string)
| JSONDecodeError (msg : string)
| TypeError
| AttributeError
| ZeroDivisionError
| ReError
| OverflowError
| Unmodelled
| UserError (e : pyval).

Inductive result (A : Type) :=
| Ok (a : A)
| Raise (e : exn).
Arguments Ok {A} a.
Arguments Raise {A} e.

Global Instance result_ret : MRet result := λ A, Ok.
Global Instance result_bind : MBind result := λ A B k r,
  match r with
  | Ok a => k a
  | Raise e => Raise e
  end.

Global Instance result_fmap : FMap result := λ A B f r,
  match r with
  | Ok a => Ok (f a)
  | Raise e => Raise e
  end.

(** [assert cond, msg] *)
Definition py_assert (cond : bool) (msg : message) : result unit :=
  if cond then Ok () else Raise (AssertionError msg).

Definition passes (r : result unit) : Prop := r = Ok ().
Definition raises_assertion (r : result unit) : Prop :=
  ∃ msg, r = Raise (AssertionError msg).

(** ** Characters and strings *)

Module Char.
Definition code (c : ascii) : N := N_of_ascii c.

Definition between (lo hi : N) (c : ascii) : bool :=
  ((lo <=? code c) && (code c <=? hi))%N.

(** [str.isspace] on one character; also what [str.split], [str.strip]
    and the class [\s] use. *)
Definition is_space (c : ascii) : bool :=
  between 9 13 c || between 28 32 c || (code c =? 133)%N || (code c =? 160)%N.

(** The class [\d]. *)
Definition is_digit (c : ascii) : bool := between 48 57 c.

(** The class [\w]. *)
Definition is_word (c : ascii) : bool :=
  between 48 57 c || between 65 90 c || (code c =? 95)%N || between 97 122 c
  || (code c =? 170)%N || between 178 179 c || (code c =? 181)%N
  || between 185 186 c || between 188 190 c || between 192 214 c
  || between 216 246 c || between 248 255 c.

Definition is_upper (c : ascii) : bool :=
  between 65 90 c || between 192 214 c || between 216 222 c.

(** [str.lower] on one character. *)
Definition lower (c : ascii) : ascii :=
  if is_upper c then ascii_of_N (code c + 32) else c.

(** The upper-case partner of a lower-case letter, when it has one below
    256. *)
Definition upper (c : ascii) : ascii :=
  if between 97 122 c || between 224 246 c || between 248 254 c
  then ascii_of_N (code c - 32) else c.
End Char.

Module Str.
Definition nl : string := String "010"%char "".

(** [s.lower()] *)
Fixpoint lower (s : string) : string :=
  match s with
  | EmptyString => EmptyString
  | String c s' => String (Char.lower c) (lower s')
  end.

(** [needle in hay] *)
Fixpoint contains (needle hay : string) : bool :=
  String.prefix needle hay ||
  match hay with
  | EmptyString => false
  | String _ hay' => contains needle hay'
  end.

Fixpoint lstrip (s : string) : string :=
  match s with
  | EmptyString => EmptyString
  | String c s' => if Char.is_space c then lstrip s' else s
  end.

Fixpoint rstrip (s : string) : string :=
  match s with
  | EmptyString => EmptyString
  | String c s' =>
      match rstrip s' with
      | EmptyString => if Char.is_space c then EmptyString else String c EmptyString
      | r => String c r
      end
  end.

(** [s.strip()] *)
Definition strip (s : string) : string := rstrip (lstrip s).

(** The word in progress [cur] (its characters in order) is closed by a
    whitespace character or by the end of the string. *)
Fixpoint split_from (cur : string) (s : string) : list string :=
  match s with
  | EmptyString => if String.eqb cur "" then [] else [cur]
  | String c s' =>
      if Char.is_space c
      then (if String.eqb cur "" then [] else [cur]) ++ split_from "" s'
      else split_from (cur +:+ String c "") s'
  end.

(** [s.split()] *)
Definition split (s : string) : list string := split_from "" s.

(** [sep.join(parts)] *)
Fixpoint join (sep : string) (parts : list string) : string :=
  match parts with
  | [] => ""
  | [p] => p
  | p :: rest => p +:+ sep +:+ join sep rest
  end.

(** [set(s.lower().split())] *)
Definition words (s : string) : gset string := list_to_set (split (lower s)).
End Str.

(** ** Floats *)

Module Float.
Definition prec : Z := 53.
Definition emax : Z := 1024.

(** The float nearest to an integer: exact below [2^53]. *)
Definition of_Z (z : Z) : spec_float := binary_normalize prec emax z 0 false.
Definition of_nat (n : nat) : spec_float := of_Z (Z.of_nat n).

Definition zero : spec_float := S754_zero false.
(** [0.5], [0.7], [0.8], [0.01] and [1.0] as Python reads them. *)
Definition half : spec_float := S754_finite false 4503599627370496 (-53).
Definition f0_7 : spec_float := S754_finite false 6305039478318694 (-53).
Definition f0_8 : spec_float := S754_finite false 7205759403792794 (-53).
Definition f0_01 : spec_float := S754_finite false 5764607523034235 (-59).
Definition one : spec_float := S754_finite false 4503599627370496 (-52).

(** [a / b] on two non-negative [int]s. *)
Definition truediv (a b : nat) : result spec_float :=
  match b with
  | O => Raise ZeroDivisionError
  | _ => Ok (SFdiv prec emax (of_nat a) (of_nat b))
  end.

(** [x >= y], [x > y] *)
Definition ge (x y : spec_float) : bool := SFleb y x.
Definition gt (x y : spec_float) : bool := SFltb y x.
End Float.

(** ** Regular expressions

    The patterns of [re] without flags in the pattern, look-around,
    back-references, lazy or possessive repetition and numeric escapes.
    [parse] answers the syntax tree of a pattern of this fragment, or
    tells why there is none: Python refuses the pattern with [re.error],
    or with an [OverflowError], or the pattern is outside the fragment;
    [compile] keeps the syntax tree. A compiled pattern is its syntax
    tree; [ends] lists where a match that starts at a given position can
    stop, so [match_] and [search] decide what [Pattern.match] and
    [Pattern.search] decide: whether there is a match. *)

Module Re.
Definition nonempty {A} (l : list A) : bool :=
  match l with [] => false | _ => true end.

Inductive item :=
| IChar (c : ascii)
| IRange (lo hi : ascii)
| IDigit (neg : bool)
| ISpace (neg : bool)
| IWord (neg : bool).

Inductive regex :=
| Eps
| Lit (c : ascii)
| Dot
| Set_ (neg : bool) (items : list item)
| Cat (a b : regex)
| Alt (a b : regex)
| Star (a : regex)
| Bol
| Eol
| Boundary (neg : bool).

(** *** Matching *)

Definition item_has (it : item) (c : ascii) : bool :=
  match it with
  | IChar x => Ascii.eqb x c
  | IRange lo hi => Char.between (Char.code lo) (Char.code hi) c
  | IDigit neg => xorb neg (Char.is_digit c)
  | ISpace neg => xorb neg (Char.is_space c)
  | IWord neg => xorb neg (Char.is_word c)
  end.

(** Under [re.IGNORECASE] a character stands for its two cases. *)
Definition item_match (ic : bool) (it : item) (c : ascii) : bool :=
  item_has it c || (ic && (item_has it (Char.lower c) || item_has it (Char.upper c))).

Definition set_match (ic neg : bool) (items : list item) (c : ascii) : bool :=
  xorb neg (existsb (λ it, item_match ic it c) items).

(** A position in the subject: the character before it, if any, and what
    is left to read. *)
Definition pos : Type := option ascii * string.

Definition step (ok : ascii → bool) (p : pos) : list pos :=
  match p.2 with
  | String c s => if ok c then [(Some c, s)] else []
  | EmptyString => []
  end.

Definition check (ok : bool) (p : pos) : list pos := if ok then [p] else [].

Definition word_before (p : pos) : bool :=
  match p.1 with Some c => Char.is_word c | None => false end.
Definition word_after (p : pos) : bool :=
  match p.2 with String c _ => Char.is_word c | EmptyString => false end.

Definition at_start (p : pos) : bool :=
  match p.1 with None => true | Some _ => false end.
(** [\b] ([neg] false) and [\B] ([neg] true); in an empty subject
    neither holds (CPython up to 3.13). *)
Definition at_boundary (neg : bool) (p : pos) : bool :=
  negb (at_start p && String.eqb p.2 "") &&
  xorb neg (xorb (word_before p) (word_after p)).
(** [$]: at the end, or before a newline that ends the subject. *)
Definition at_end (p : pos) : bool :=
  String.eqb p.2 "" || String.eqb p.2 Str.nl.

Definition shorter (p q : pos) : bool :=
  (String.length q.2 <? String.length p.2)%nat.

(** Zero or more rounds of [f]; a round that reads nothing adds no new
    position, and each other round shortens what is left. *)
Fixpoint iter (f : pos → list pos) (fuel : nat) (p : pos) : list pos :=
  p :: match fuel with
       | O => []
       | S n => flat_map (iter f n) (filter (λ q, shorter p q) (f p))
       end.

Fixpoint ends (ic : bool) (r : regex) (p : pos) : list pos :=
  match r with
  | Eps => [p]
  | Lit c => step (λ x, item_match ic (IChar c) x) p
  | Dot => step (λ x, negb (Ascii.eqb x "010")) p
  | Set_ neg items => step (set_match ic neg items) p
  | Cat a b => flat_map (ends ic b) (ends ic a p)
  | Alt a b => ends ic a p ++ ends ic b p
  | Star a => iter (ends ic a) (String.length p.2) p
  | Bol => check (at_start p) p
  | Eol => check (at_end p) p
  | Boundary neg => check (at_boundary neg p) p
  end.

(** [pattern.match(s)]: a match that starts at position 0. *)
Definition match_ (ic : bool) (r : regex) (s : string) : bool :=
  nonempty (ends ic r (None, s)).

Fixpoint search_from (ic : bool) (r : regex) (prev : option ascii) (s : string) : bool :=
  nonempty (ends ic r (prev, s)) ||
  match s with
  | EmptyString => false
  | String c s' => search_from ic r (Some c) s'
  end.

(** [pattern.search(s)]: a match that starts anywhere. *)
Definition search (ic : bool) (r : regex) (s : string) : bool :=
  search_from ic r None s.

(** *** What a match is

    [Matches ic r p q]: the pattern [r] matches the subject from the
    position [p] to the position [q]. *)

Inductive Matches (ic : bool) : regex → pos → pos → Prop :=
| M_eps p : Matches ic Eps p p
| M_lit c x prev s :
    item_match ic (IChar c) x = true →
    Matches ic (Lit c) (prev, String x s) (Some x, s)
| M_dot x prev s :
    x ≠ "010"%char →
    Matches ic Dot (prev, String x s) (Some x, s)
| M_set neg items x prev s :
    set_match ic neg items x = true →
    Matches ic (Set_ neg items) (prev, String x s) (Some x, s)
| M_cat a b p q r :
    Matches ic a p q → Matches ic b q r → Matches ic (Cat a b) p r
| M_alt_l a b p q : Matches ic a p q → Matches ic (Alt a b) p q
| M_alt_r a b p q : Matches ic b p q → Matches ic (Alt a b) p q
| M_star_stop a p : Matches ic (Star a) p p
| M_star_more a p q r :
    Matches ic a p q → Matches ic (Star a) q r → Matches ic (Star a) p r
| M_bol p : at_start p = true → Matches ic Bol p p
| M_eol p : at_end p = true → Matches ic Eol p p
| M_boundary neg p : at_boundary neg p = true → Matches ic (Boundary neg) p p.

(** The position after the prefix [pre] of a subject, read from [p]. *)
Fixpoint advance (p : option ascii) (pre : string) : option ascii :=
  match pre with
  | EmptyString => p
  | String c pre' => advance (Some c) pre'
  end.

(** [r] matches the subject [s] from its first character on. *)
Definition matches_at_start (ic : bool) (r : regex) (s : string) : Prop :=
  ∃ q, Matches ic r (None, s) q.

(** [r] matches [s] somewhere: after a prefix [pre] of [s]. *)
Definition matches_somewhere (ic : bool) (r : regex) (s : string) : Prop :=
  ∃ pre post q, s = pre +:+ post ∧ Matches ic r (advance None pre, post) q.

(** *** Parsing *)

Definition maxrepeat : N := 4294967295.

Fixpoint digits_from (acc : option N) (s : string) : option N * string :=
  match s with
  | String c s' =>
      if Char.is_digit c
      then digits_from (Some (10 * default 0 acc + (Char.code c - 48))%N) s'
      else (acc, s)
  | EmptyString => (acc, s)
  end.

(** What [re.compile] does with a pattern, as far as the embedding
    says: the syntax tree of a pattern of the fragment, or why there is
    none. [Beyond] is no answer of Python: the pattern uses something
    that the embedding does not model, and nothing is said about it. *)
Inductive failure :=
| Refused     (* re.error *)
| TooLarge    (* OverflowError: a repetition count of MAXREPEAT or more *)
| Beyond.     (* outside the fragment *)

Inductive parsed (A : Type) :=
| Parsed (a : A)
| Failed (why : failure).
Arguments Parsed {A} a.
Arguments Failed {A} why.

Global Instance parsed_ret : MRet parsed := λ A, Parsed.
Global Instance parsed_bind : MBind parsed := λ A B k r,
  match r with
  | Parsed a => k a
  | Failed why => Failed why
  end.

(** The longest run of digits that [int] converts without a limit of
    its own. *)
Definition max_digits : nat := 4300.

(** What follows an opening brace: a repetition count, a count that
    Python refuses, with the reason, or nothing of the kind (the brace
    is then a literal). *)
Inductive brace :=
| BLiteral
| BFailed (why : failure)
| BCount (lo : N) (hi : option N) (rest : string).

Definition read_brace (s : string) : brace :=
  match s with
  | String "}" _ => BLiteral
  | _ =>
      let '(lo, s1) := digits_from None s in
      let '(hi, s2) :=
        match s1 with
        | String "," s1' => digits_from None s1'
        | _ => (lo, s1)
        end in
      match s2 with
      | String "}" rest =>
          (* reading the closing brace reads ahead: a backslash that ends
             the pattern is refused before the counts are looked at *)
          if String.eqb rest "\" then BFailed Refused
          else if (max_digits <? String.length s - String.length rest)%nat
          then BFailed Beyond
          else
            let min := default 0%N lo in
            if (maxrepeat <=? min)%N then BFailed TooLarge
            else match hi with
                 | Some h =>
                     if (maxrepeat <=? h)%N then BFailed TooLarge
                     else if (h <? min)%N then BFailed Refused
                     else BCount min (Some h) rest
                 | None => BCount min None rest
                 end
      | _ => BLiteral
      end
  end.

Fixpoint power (n : nat) (r : regex) : regex :=
  match n with
  | O => Eps
  | S n' => Cat r (power n' r)
  end.

Fixpoint upto (n : nat) (r : regex) : regex :=
  match n with
  | O => Eps
  | S n' => Alt (Cat r (upto n' r)) Eps
  end.

(** [r{lo,hi}], and [r{lo,}] when [hi] is absent. *)
Definition repeat (lo : N) (hi : option N) (r : regex) : regex :=
  Cat (power (N.to_nat lo) r)
      (match hi with
       | None => Star r
       | Some h => upto (N.to_nat (h - lo)) r
       end).

Definition is_ascii_letter (c : ascii) : bool :=
  Char.between 65 90 c || Char.between 97 122 c.

(** The escapes that stand for one character. *)
Definition control_escape (c : ascii) : option ascii :=
  match c with
  | "a" => Some "007" | "b" => Some "008" | "f" => Some "012"
  | "n" => Some "010" | "r" => Some "013" | "t" => Some "009"
  | "v" => Some "011" | "\" => Some "\"
  | _ => None
  end%char.

Definition category_escape (c : ascii) : option item :=
  match c with
  | "d" => Some (IDigit false) | "D" => Some (IDigit true)
  | "s" => Some (ISpace false) | "S" => Some (ISpace true)
  | "w" => Some (IWord false) | "W" => Some (IWord true)
  | _ => None
  end%char.

(** A backslash and a digit or an ASCII letter [c] that is no escape of
    the fragment: the numeric escapes and, outside a set, the anchors
    [\A] and [\Z] are Python's but not the fragment's; the other letters
    Python refuses. *)
Definition unknown_escape (in_set : bool) (c : ascii) : failure :=
  if Char.is_digit c then Beyond
  else if Ascii.eqb c "x" || Ascii.eqb c "u" || Ascii.eqb c "U" || Ascii.eqb c "N"
  then Beyond
  else if negb in_set && (Ascii.eqb c "A" || Ascii.eqb c "Z") then Beyond
  else Refused.

(** A backslash and [c] inside a character set. *)
Definition class_escape (c : ascii) : parsed item :=
  match control_escape c with
  | Some x => Parsed (IChar x)
  | None =>
      match category_escape c with
      | Some it => Parsed it
      | None =>
          if Char.is_digit c || is_ascii_letter c then Failed (unknown_escape true c)
          else Parsed (IChar c)
      end
  end.

(** A backslash and [c] outside a character set; the flag tells whether
    the atom can be repeated (an assertion cannot). *)
Definition escape (c : ascii) : parsed (regex * bool) :=
  match category_escape c with
  | Some it => Parsed (Set_ false [it], true)
  | None =>
      match c with
      | "b"%char => Parsed (Boundary false, false)
      | "B"%char => Parsed (Boundary true, false)
      | _ =>
          match control_escape c with
          | Some x => Parsed (Lit x, true)
          | None =>
              if Char.is_digit c || is_ascii_letter c
              then Failed (unknown_escape false c)
              else Parsed (Lit c, true)
          end
      end
  end.

Definition class_member (c : ascii) (s : string) : parsed (item * string) :=
  match c with
  | "\"%char =>
      match s with
      | String e s' => it ← class_escape e; Parsed (it, s')
      | EmptyString => Failed Refused
      end
  | _ => Parsed (IChar c, s)
  end.

(** The members of a set up to its closing bracket; a bracket that comes
    first is a member. A set without its closing bracket and a range
    that is none are refused. *)
Fixpoint class_items (fuel : nat) (acc : list item) (s : string)
  : parsed (list item * string) :=
  match fuel, s with
  | _, EmptyString => Failed Refused
  | O, _ => Failed Beyond
  | S n, String c s1 =>
      if Ascii.eqb c "]" && nonempty acc then Parsed (acc, s1)
      else
        '(code1, s2) ← class_member c s1;
        match s2 with
        | String "-" EmptyString => Failed Refused
        | String "-" (String "]" s4) => Parsed (acc ++ [code1; IChar "-"], s4)
        | String "-" (String d s4) =>
            '(code2, s5) ← class_member d s4;
            match code1, code2 with
            | IChar lo, IChar hi =>
                if (Char.code hi <? Char.code lo)%N then Failed Refused
                else class_items n (acc ++ [IRange lo hi]) s5
            | _, _ => Failed Refused
            end
        | _ => class_items n (acc ++ [code1]) s2
        end
  end.

(** An atom that is not a group, from its first character [c]. A
    repetition with nothing before it is refused. *)
Definition simple_atom (c : ascii) (s : string) : parsed (regex * bool * string) :=
  match c with
  | "."%char => Parsed (Dot, true, s)
  | "^"%char => Parsed (Bol, false, s)
  | "$"%char => Parsed (Eol, false, s)
  | "*"%char | "+"%char | "?"%char => Failed Refused
  | "{"%char =>
      match read_brace s with
      | BLiteral => Parsed (Lit c, true, s)
      | BFailed why => Failed why
      | BCount _ _ _ => Failed Refused
      end
  | "\"%char =>
      match s with
      | String e s' => '(r, rep) ← escape e; Parsed (r, rep, s')
      | EmptyString => Failed Refused
      end
  | "["%char =>
      let '(neg, s1) :=
        match s with
        | String "^" s' => (true, s')
        | _ => (false, s)
        end in
      '(items, s2) ← class_items (String.length s1) [] s1;
      Parsed (Set_ neg items, true, s2)
  | _ => Parsed (Lit c, true, s)
  end.

(** After a repetition: a second repetition is refused, and the lazy and
    possessive marks are outside the fragment. *)
Definition after_repeat (r : regex) (s : string) : parsed (regex * string) :=
  match s with
  | String "*" _ => Failed Refused
  | String "+" _ | String "?" _ => Failed Beyond
  | String "{" s' =>
      match read_brace s' with
      | BLiteral => Parsed (r, s)
      | BFailed why => Failed why
      | BCount _ _ _ => Failed Refused
      end
  | _ => Parsed (r, s)
  end.

(** The repetition that may follow the atom [a]; an assertion cannot be
    repeated. *)
Definition quantified (a : regex) (repeatable : bool) (s : string)
  : parsed (regex * string) :=
  match s with
  | String "*" s' => if repeatable then after_repeat (Star a) s' else Failed Refused
  | String "+" s' =>
      if repeatable then after_repeat (Cat a (Star a)) s' else Failed Refused
  | String "?" s' => if repeatable then after_repeat (Alt a Eps) s' else Failed Refused
  | String "{" s' =>
      match read_brace s' with
      | BLiteral => Parsed (a, s)
      | BFailed why => Failed why
      | BCount lo hi rest =>
          if repeatable then after_repeat (repeat lo hi a) rest else Failed Refused
      end
  | _ => Parsed (a, s)
  end.

(** [a|b|c], a sequence of repeated atoms, and one repeated atom. Of the
    groups that open with [(?] only [(?:] is in the fragment; a group
    without its closing parenthesis is refused. *)
Fixpoint parse_alt (fuel : nat) (s : string) : parsed (regex * string) :=
  match fuel with
  | O => Failed Beyond
  | S n =>
      '(a, s1) ← parse_seq n s;
      match s1 with
      | String "|" s2 => '(b, s3) ← parse_alt n s2; Parsed (Alt a b, s3)
      | _ => Parsed (a, s1)
      end
  end
with parse_seq (fuel : nat) (s : string) : parsed (regex * string) :=
  match fuel with
  | O => Failed Beyond
  | S n =>
      match s with
      | EmptyString | String "|" _ | String ")" _ => Parsed (Eps, s)
      | String c s1 =>
          '(a, s2) ← parse_item n c s1;
          '(b, s3) ← parse_seq n s2;
          Parsed (match b with Eps => a | _ => Cat a b end, s3)
      end
  end
with parse_item (fuel : nat) (c : ascii) (s : string) : parsed (regex * string) :=
  match fuel with
  | O => Failed Beyond
  | S n =>
      match c with
      | "("%char =>
          body ← match s with
                 | String "?" (String ":" s') => Parsed s'
                 | String "?" _ => Failed Beyond
                 | _ => Parsed s
                 end;
          '(a, s1) ← parse_alt n body;
          match s1 with
          | String ")" s2 => quantified a true s2
          | _ => Failed Refused
          end
      | _ =>
          '(a, rep, s1) ← simple_atom c s;
          quantified a rep s1
      end
  end.

(** What [re.compile(pattern)] does; a closing parenthesis without its
    opening one is refused. *)
Definition parse (pattern : string) : parsed regex :=
  '(r, rest) ← parse_alt (3 * String.length pattern + 3) pattern;
  match rest with
  | EmptyString => Parsed r
  | _ => Failed Refused
  end.

(** The compiled pattern, for a pattern of the fragment. *)
Definition compile (pattern : string) : option regex :=
  match parse pattern with
  | Parsed r => Some r
  | Failed _ => None
  end.

(** What stands for the exception of [re.compile(pattern)] when [compile]
    has no syntax tree. *)
Definition raised (pattern : string) : exn :=
  match parse pattern with
  | Failed Refused => ReError
  | Failed TooLarge => OverflowError
  | _ => Unmodelled
  end.
End Re.

(** ** mocks.py *)

Record MockResponse := {
  content : string;
  model : string;
  tokens_used : Z;
  cost : spec_float;
  latency : spec_float;
  metadata : gmap string pyval;
}.

(** [MockResponse(content=content)] *)
Definition mock_response (content : string) : MockResponse :=
  {| content := content; model := "gpt-4"; tokens_used := 100;
     cost := Float.f0_01; latency := Float.half; metadata := ∅ |}.

(** [response: Union[str, MockResponse]], after the [isinstance] test that
    opens every registration. *)
Definition wrap (response : string + MockResponse) : MockResponse :=
  match response with
  | inl s => mock_response s
  | inr r => r
  end.

(** One entry of [self.responses]: the key and its kind ([False], [True]
    or ["function"] in the source). A matcher function is given by what
    its call does: raise, or return a value of some truth value. *)
Inductive matcher :=
| Exact (prompt : string)
| Pattern (p : Re.regex)
| Function (f : pyval → gmap string pyval → result bool).

(** One entry of [self.call_history]. *)
Record CallRecord := {
  call_prompt : pyval;
  call_kwargs : gmap string pyval;
}.

Record MockLLM := {
  responses : list (matcher * MockResponse);
  call_history : list CallRecord;
  default_response : string + MockResponse;
}.

(** [MockLLM()] *)
Definition new_mock : MockLLM :=
  {| responses := []; call_history := []; default_response := inl "Mock response" |}.

Definition with_matcher (self : MockLLM) (m : matcher) (r : MockResponse) : MockLLM :=
  {| responses := responses self ++ [(m, r)];
     call_history := call_history self;
     default_response := default_response self |}.

Definition add_response (self : MockLLM) (prompt : string)
    (response : string + MockResponse) : MockLLM :=
  with_matcher self (Exact prompt) (wrap response).

Definition add_pattern (self : MockLLM) (pattern : string)
    (response : string + MockResponse) : result MockLLM :=
  match Re.compile pattern with
  | Some p => Ok (with_matcher self (Pattern p) (wrap response))
  | None => Raise (Re.raised pattern)
  end.

Definition add_function_response (self : MockLLM)
    (f : pyval → gmap string pyval → result bool)
    (response : string + MockResponse) : MockLLM :=
  with_matcher self (Function f) (wrap response).

Definition set_default_response (self : MockLLM)
    (response : string + MockResponse) : MockLLM :=
  {| responses := responses self;
     call_history := call_history self;
     default_response := inr (wrap response) |}.

(** The test of one entry in the loop of [get_response]: [prompt ==
    matcher], [matcher.match(prompt)], [matcher(prompt, **kwargs)]. *)
Definition satisfied (m : matcher) (prompt : pyval) (kwargs : gmap string pyval)
  : result bool :=
  match m with
  | Exact key =>
      Ok (match prompt with PStr s => String.eqb s key | _ => false end)
  | Pattern p =>
      match prompt with
      | PStr s => Ok (Re.match_ false p s)
      | _ => Raise TypeError
      end
  | Function f => f prompt kwargs
  end.

(** The loop over [self.responses], and what follows it. *)
Fixpoint scan (rs : list (matcher * MockResponse)) (default : string + MockResponse)
    (prompt : pyval) (kwargs : gmap string pyval) : result MockResponse :=
  match rs with
  | [] => Ok (wrap default)
  | (m, response) :: rest =>
      hit ← satisfied m prompt kwargs;
      if hit : bool then Ok response else scan rest default prompt kwargs
  end.

Definition record_call (self : MockLLM) (prompt : pyval)
    (kwargs : gmap string pyval) : MockLLM :=
  {| responses := responses self;
     call_history := call_history self ++
       [{| call_prompt := prompt; call_kwargs := kwargs |}];
     default_response := default_response self |}.

(** [self.get_response(prompt, **kwargs)]: the object after the call, and
    what the call returns or raises. *)
Definition get_response (self : MockLLM) (prompt : pyval)
    (kwargs : gmap string pyval) : MockLLM * result MockResponse :=
  let self' := record_call self prompt kwargs in
  (self', scan (responses self') (default_response self') prompt kwargs).

Definition get_call_count (self : MockLLM) : nat := length (call_history self).

Definition get_last_call (self : MockLLM) : option CallRecord :=
  last (call_history self).

Definition reset (self : MockLLM) : MockLLM :=
  {| responses := responses self;
     call_history := [];
     default_response := default_response self |}.

(** *** Provider adapters *)

Definition is_user (msg : gmap string pyval) : bool :=
  match msg !! "role" with
  | Some (PStr r) => String.eqb r "user"
  | _ => false
  end.

(** [msg.get("content", "")] *)
Definition content_of (msg : gmap string pyval) : pyval :=
  default (PStr "") (msg !! "content").

(** The first message with role ["user"] in [reversed(messages)]. *)
Definition last_user (messages : list (gmap string pyval)) : option (gmap string pyval) :=
  head (filter (λ msg, is_user msg = true) (reverse messages)).

(** [self.mock_llm.get_response(user_message, **kwargs)]: the parameter
    [prompt] is bound already, so a keyword of that name is refused by the
    call itself, before the body runs. *)
Definition forward (self : MockLLM) (user_message : pyval)
    (kwargs : gmap string pyval) : MockLLM * result MockResponse :=
  if bool_decide (is_Some (kwargs !! "prompt"))
  then (self, Raise TypeError)
  else get_response self user_message kwargs.

(** The object [OpenAIMock.Chat.Completions.create] builds. *)
Record ChatCompletion := {
  choice_content : string;
  choice_role : string;
  finish_reason : string;
  completion_model : string;
  total_tokens : Z;
  prompt_tokens : Z;
  completion_tokens : Z;
}.

Definition openai_user_message (messages : list (gmap string pyval)) : pyval :=
  match last_user messages with
  | Some msg => content_of msg
  | None => PStr ""
  end.

Definition openai_create (self : MockLLM) (messages : list (gmap string pyval))
    (kwargs : gmap string pyval) : MockLLM * result ChatCompletion :=
  let user_message := openai_user_message messages in
  let '(self', r) := forward self user_message kwargs in
  (self',
   response ← r;
   Ok {| choice_content := content response;
         choice_role := "assistant";
         finish_reason := "stop";
         completion_model := model response;
         total_tokens := tokens_used response;
         prompt_tokens := tokens_used response `div` 2;
         completion_tokens := tokens_used response `div` 2 |}).

(** The object [AnthropicMock.Messages.create] builds. *)
Record AnthropicMessage := {
  block_text : string;
  message_model : string;
  input_tokens : Z;
  output_tokens : Z;
}.

(** [c.get("text", "")] for a block [c] *)
Definition block_text_of (c : pyval) : result pyval :=
  match c with
  | PDict d => Ok (default (PStr "") (d !! "text"))
  | _ => Raise AttributeError
  end.

Definition as_str (v : pyval) : result string :=
  match v with
  | PStr s => Ok s
  | _ => Raise TypeError
  end.

(** [" ".join([c.get("text", "") for c in content])] *)
Definition join_blocks (blocks : list pyval) : result pyval :=
  texts ← mapM block_text_of blocks;
  strs ← mapM as_str texts;
  Ok (PStr (Str.join " " strs)).

Definition anthropic_user_message (messages : list (gmap string pyval)) : result pyval :=
  match last_user messages with
  | Some msg =>
      match content_of msg with
      | PList blocks => join_blocks blocks
      | content => Ok content
      end
  | None => Ok (PStr "")
  end.

Definition anthropic_create (self : MockLLM) (messages : list (gmap string pyval))
    (kwargs : gmap string pyval) : MockLLM * result AnthropicMessage :=
  match anthropic_user_message messages with
  | Raise e => (self, Raise e)
  | Ok user_message =>
      let '(self', r) := forward self user_message kwargs in
      (self',
       response ← r;
       Ok {| block_text := content response;
             message_model := model response;
             input_tokens := tokens_used response `div` 2;
             output_tokens := tokens_used response `div` 2 |})
  end.

(** ** assertions.py *)

Definition quoted (s : string) : string := "'" +:+ s +:+ "'".

(** The branch [mode == "contains"], and the body of [assert_contains]. *)
Definition check_contains (output expected : string) : result unit :=
  py_assert (Str.contains expected output)
    [Text ("Expected " +:+ quoted expected +:+ " not found in output." +:+ Str.nl
           +:+ "Output: " +:+ output)].

(** [re.search(pattern, s, flags)] on a pattern given as a string. *)
Definition re_search (pattern s : string) (ignorecase : bool) : result bool :=
  match Re.compile pattern with
  | Some r => Ok (Re.search ignorecase r s)
  | None => Raise (Re.raised pattern)
  end.

(** [_calculate_similarity(str1, str2)] *)
Definition _calculate_similarity (str1 str2 : string) : result spec_float :=
  let words1 := Str.words str1 in
  let words2 := Str.words str2 in
  if decide (words2 = ∅) then Ok Float.zero
  else
    let overlap := size (words1 ∩ words2) in
    Float.truediv overlap (size words2).

Definition assert_agent_response (output expected mode : string)
    (case_sensitive : bool) : result unit :=
  let fold := negb case_sensitive && negb (String.eqb mode "regex") in
  let output := if fold then Str.lower output else output in
  let expected := if fold then Str.lower expected else expected in
  if String.eqb mode "contains" then
    check_contains output expected
  else if String.eqb mode "equals" then
    py_assert (String.eqb output expected)
      [Text ("Output does not match expected." +:+ Str.nl
             +:+ "Expected: " +:+ expected +:+ Str.nl
             +:+ "Actual: " +:+ output)]
  else if String.eqb mode "regex" then
    hit ← re_search expected output (negb case_sensitive);
    py_assert hit
      [Text ("Pattern " +:+ quoted expected +:+ " not found in output." +:+ Str.nl
             +:+ "Output: " +:+ output)]
  else if String.eqb mode "similarity" then
    score ← _calculate_similarity output expected;
    py_assert (Float.ge score Float.f0_8)
      [Text "Similarity score "; Fixed2 score; Text (" < 0.8" +:+ Str.nl
             +:+ "Output: " +:+ output +:+ Str.nl
             +:+ "Expected: " +:+ expected)]
  else Raise (ValueError ("Unknown mode: " +:+ mode)).

Definition assert_contains (output expected : string) (case_sensitive : bool)
  : result unit :=
  let output := if case_sensitive then output else Str.lower output in
  let expected := if case_sensitive then expected else Str.lower expected in
  check_contains output expected.

Definition assert_not_contains (output unexpected : string) (case_sensitive : bool)
  : result unit :=
  let output := if case_sensitive then output else Str.lower output in
  let unexpected := if case_sensitive then unexpected else Str.lower unexpected in
  py_assert (negb (Str.contains unexpected output))
    [Text ("Unexpected " +:+ quoted unexpected +:+ " found in output." +:+ Str.nl
           +:+ "Output: " +:+ output)].

(** *** JSON *)

(** A schema, as far as [_validate_schema] reads it: the values under
    ["type"] (a string), ["properties"] (schemas by name, in the order of
    the dictionary) and ["required"] (a list of names), each present or
    not. *)
Inductive schema :=
| Schema (type_ : option string)
         (properties : option (list (string * schema)))
         (required : option (list string)).

(** [type(data).__name__] *)
Definition type_name (data : pyval) : string :=
  match data with
  | PNone => "NoneType"
  | PBool _ => "bool"
  | PInt _ => "int"
  | PFloat _ => "float"
  | PStr _ => "str"
  | PList _ => "list"
  | PDict _ => "dict"
  end.

(** [isinstance(data, type_map[expected_type])], or [None] when
    [expected_type] is no key of [type_map]. A [bool] is an [int]. *)
Definition instance_of (expected_type : string) (data : pyval) : option bool :=
  if String.eqb expected_type "object" then
    Some (match data with PDict _ => true | _ => false end)
  else if String.eqb expected_type "array" then
    Some (match data with PList _ => true | _ => false end)
  else if String.eqb expected_type "string" then
    Some (match data with PStr _ => true | _ => false end)
  else if String.eqb expected_type "number" then
    Some (match data with PInt _ | PBool _ | PFloat _ => true | _ => false end)
  else if String.eqb expected_type "integer" then
    Some (match data with PInt _ | PBool _ => true | _ => false end)
  else if String.eqb expected_type "boolean" then
    Some (match data with PBool _ => true | _ => false end)
  else if String.eqb expected_type "null" then
    Some (match data with PNone => true | _ => false end)
  else None.

Definition check_type (type_ : option string) (data : pyval) : result unit :=
  match type_ with
  | Some expected_type =>
      match instance_of expected_type data with
      | Some ok =>
          py_assert ok
            [Text ("Expected type " +:+ expected_type +:+ ", got " +:+ type_name data)]
      | None => Ok ()
      end
  | None => Ok ()
  end.

(** ["required" in schema and key in schema["required"]] *)
Definition is_required (required : option (list string)) (key : string) : bool :=
  match required with
  | Some names => bool_decide (key ∈ names)
  | None => false
  end.

Definition missing_message (key : string) : message :=
  [Text ("Required property " +:+ quoted key +:+ " missing")].

(** [for x in items: body(x)], stopping at the first exception. *)
Definition for_each {A} (body : A → result unit) : list A → result unit :=
  fix go (items : list A) : result unit :=
    match items with
    | [] => Ok ()
    | x :: rest => _ ← body x; go rest
    end.

(** The body of the loop over [schema["properties"].items()], with the
    recursive call as [validate]. *)
Definition check_property (validate : pyval → schema → result unit)
    (d : gmap string pyval) (required : option (list string))
    (property : string * schema) : result unit :=
  let '(key, value_schema) := property in
  _ ← (if is_required required key
       then py_assert (bool_decide (is_Some (d !! key))) (missing_message key)
       else Ok ());
  match d !! key with
  | Some v => validate v value_schema
  | None => Ok ()
  end.

(** [_validate_schema(data, schema)] *)
Fixpoint _validate_schema (data : pyval) (sch : schema) : result unit :=
  match sch with
  | Schema type_ properties required =>
      _ ← check_type type_ data;
      match properties, data with
      | Some props, PDict d =>
          for_each (check_property _validate_schema d required) props
      | _, _ => Ok ()
      end
  end.

(** [assert_json_valid(output, schema)]. The decoder [json.loads] is the
    standard library's: [loaded] is what it returns or raises on [output]. *)
Definition assert_json_valid (loaded : result pyval) (sch : option schema)
  : result unit :=
  match loaded with
  | Raise (JSONDecodeError e) =>
      Raise (AssertionError [Text ("Output is not valid JSON: " +:+ e)])
  | Raise e => Raise e
  | Ok data =>
      match sch with
      | Some sch => _validate_schema data sch
      | None => Ok ()
      end
  end.

(** *** Grounding *)

Definition is_terminator (c : ascii) : bool :=
  Ascii.eqb c "." || Ascii.eqb c "!" || Ascii.eqb c "?".

(** [re.split(r'[.!?]+', s)]: the pattern matches the runs of terminators,
    never the empty string, so the pieces are what lies between the runs.
    [cur] is the piece in progress and [in_run] tells whether the last
    character read was a terminator. *)
Fixpoint split_runs (cur : string) (in_run : bool) (s : string) : list string :=
  match s with
  | EmptyString => [cur]
  | String c s' =>
      if is_terminator c
      then (if in_run then [] else [cur]) ++ split_runs "" true s'
      else split_runs (cur +:+ String c "") false s'
  end.

Definition split_sentences (output : string) : list string :=
  split_runs "" false output.

(** [[s.strip() for s in sentences if s.strip()]] *)
Definition sentences_of (output : string) : list string :=
  filter (λ s, s ≠ "") (Str.strip <$> split_sentences output).

(** The inner loop: does some document hold more than half of the words? *)
Fixpoint grounded_in (words : gset string) (source_docs : list string) : result bool :=
  match source_docs with
  | [] => Ok false
  | doc :: rest =>
      let doc_words := Str.words doc in
      let overlap := size (words ∩ doc_words) in
      ratio ← Float.truediv overlap (size words);
      if Float.gt ratio Float.half then Ok true else grounded_in words rest
  end.

(** The outer loop, from the count so far. *)
Fixpoint count_grounded (grounded_count : nat) (sentences source_docs : list string)
  : result nat :=
  match sentences with
  | [] => Ok grounded_count
  | sentence :: rest =>
      hit ← grounded_in (Str.words sentence) source_docs;
      count_grounded (if hit : bool then S grounded_count else grounded_count)
        rest source_docs
  end.

Definition grounding_ratio (output : string) (source_docs : list string)
  : result spec_float :=
  let sentences := sentences_of output in
  grounded_count ← count_grounded 0 sentences source_docs;
  match sentences with
  | [] => Ok Float.zero
  | _ => Float.truediv grounded_count (length sentences)
  end.

Definition assert_no_hallucination (output : string) (source_docs : list string)
    (threshold : spec_float) : result unit :=
  ratio ← grounding_ratio output source_docs;
  py_assert (Float.ge ratio threshold)
    [Text "Grounding ratio "; Fixed2 ratio; Text " < "; Shown threshold;
     Text (Str.nl +:+ "Output may contain hallucinations." +:+ Str.nl
           +:+ "Output: " +:+ output)].

(** *** Personal data *)

Definition pii_patterns : list (string * string) :=
  [("email", "\b[A-Za-z0-9._%+-]+@[A-Za-z0-9.-]+\.[A-Z|a-z]{2,}\b");
   ("phone", "\b\d{3}[-.]?\d{3}[-.]?\d{4}\b");
   ("ssn", "\b\d{3}-\d{2}-\d{4}\b");
   ("credit_card", "\b\d{4}[-\s]?\d{4}[-\s]?\d{4}[-\s]?\d{4}\b")].

(** The loop that fills [found_pii]. *)
Fixpoint find_pii (patterns : list (string * string)) (output : string)
  : result (list string) :=
  match patterns with
  | [] => Ok []
  | (pii_type, pattern) :: rest =>
      hit ← re_search pattern output false;
      found ← find_pii rest output;
      Ok (if hit : bool then pii_type :: found else found)
  end.

Definition pii_message (found_pii : list string) (output : string) : message :=
  [Text ("PII detected in output: " +:+ Str.join ", " found_pii +:+ Str.nl
         +:+ "Output: " +:+ output)].

Definition assert_no_pii (output : string) : result unit :=
  found_pii ← find_pii pii_patterns output;
  py_assert (bool_decide (found_pii = [])) (pii_message found_pii output).

(** ** agent_test.py *)

(** [AgentTest.assert_similarity(output, expected, min_score)] *)
Definition assert_similarity (output expected : string) (min_score : spec_float)
  : result unit :=
  let output_words := Str.words output in
  let expected_words := Str.words expected in
  if decide (expected_words = ∅) then Ok ()
  else
    let overlap := size (output_words ∩ expected_words) in
    score ← Float.truediv overlap (size expected_words);
    py_assert (Float.ge score min_score)
      [Text "Similarity score "; Fixed2 score; Text " < "; Shown min_score;
       Text (Str.nl +:+ "Output: " +:+ output +:+ Str.nl
             +:+ "Expected: " +:+ expected)].

(** ** More of Python's strings *)

Module PyStr.
(** [str(n)] for an [int] *)
Definition of_Z (z : Z) : string := NilZero.string_of_int (Z.to_int z).
Definition of_nat (n : nat) : string := of_Z (Z.of_nat n).

(** [s[:n]] *)
Fixpoint take (n : nat) (s : string) : string :=
  match n, s with
  | S n', String c s' => String c (take n' s')
  | _, _ => EmptyString
  end.

(** [s[n:]] *)
Fixpoint drop (n : nat) (s : string) : string :=
  match n, s with
  | S n', String _ s' => drop n' s'
  | _, _ => s
  end.

(** [s.replace(old, new)] for a non-empty [old]: the occurrences are taken
    from the left and do not overlap. [fuel] bounds the characters left. *)
Fixpoint replace_from (fuel : nat) (old new s : string) : string :=
  match fuel with
  | O => s
  | S n =>
      if String.prefix old s
      then new +:+ replace_from n old new (drop (String.length old) s)
      else match s with
           | EmptyString => EmptyString
           | String c s' => String c (replace_from n old new s')
           end
  end.

(** [s.replace("", new)]: [new] goes before every character and at the end. *)
Fixpoint interleave (new s : string) : string :=
  match s with
  | EmptyString => new
  | String c s' => new +:+ String c (interleave new s')
  end.

(** [s.replace(old, new)] *)
Definition replace (old new s : string) : string :=
  match old with
  | EmptyString => interleave new s
  | _ => replace_from (String.length s) old new s
  end.

Definition hex_digit (n : N) : ascii :=
  if (n <? 10)%N then ascii_of_N (48 + n) else ascii_of_N (87 + n).

(** [str.isprintable] on one character. *)
Definition is_printable (c : ascii) : bool :=
  Char.between 32 126 c || Char.between 161 172 c || Char.between 174 255 c.

Definition quote1 : ascii := "'"%char.
Definition quote2 : ascii := "034"%char.
Definition backslash : ascii := "\"%char.

Fixpoint has_char (c : ascii) (s : string) : bool :=
  match s with
  | EmptyString => false
  | String x s' => Ascii.eqb x c || has_char c s'
  end.

(** One character of [repr(s)], inside the quote [q]. *)
Definition repr_char (q c : ascii) : string :=
  if Ascii.eqb c q || Ascii.eqb c backslash then String backslash (String c "")
  else if Ascii.eqb c "009" then String backslash "t"
  else if Ascii.eqb c "010" then String backslash "n"
  else if Ascii.eqb c "013" then String backslash "r"
  else if is_printable c then String c ""
  else String backslash
         (String "x" (String (hex_digit (Char.code c / 16))
                        (String (hex_digit (Char.code c mod 16)) ""))).

Fixpoint repr_body (q : ascii) (s : string) : string :=
  match s with
  | EmptyString => EmptyString
  | String c s' => repr_char q c +:+ repr_body q s'
  end.

(** [repr(s)] for a [str]: double quotes when [s] has a single quote and
    no double quote, single quotes otherwise. *)
Definition repr (s : string) : string :=
  let q := if has_char quote1 s && negb (has_char quote2 s) then quote2 else quote1 in
  String q (repr_body q s) +:+ String q "".

(** [repr(items)] for a list of [str]; also what [f"{items}"] gives. *)
Definition repr_list (items : list string) : string :=
  "[" +:+ Str.join ", " (repr <$> items) +:+ "]".
End PyStr.

(** ** assertions.py, the other assertions

    [assert_cost] is left out: its message prints floats with four
    decimals, which [piece] does not have. *)

Definition assert_latency (duration max_seconds : spec_float) : result unit :=
  py_assert (Float.ge max_seconds duration)
    [Text "Operation took "; Fixed2 duration; Text "s, expected <= ";
     Shown max_seconds; Text "s"].

Definition assert_token_count (tokens max_tokens : Z) : result unit :=
  py_assert (tokens <=? max_tokens)%Z
    [Text ("Token usage " +:+ PyStr.of_Z tokens +:+ ", expected <= "
           +:+ PyStr.of_Z max_tokens)].

Definition markdown_markers : list string := ["#"; "**"; "*"; "-"; "```"].

(** [assert_format(output, format_type)]. The three parsers are library
    code: [json_loaded] is what [json.loads(output)] returns or raises, and
    [yaml_error] and [xml_error] hold the text of the exception that
    [yaml.safe_load(output)] and [ET.fromstring(output)] raise, if any. *)
Definition assert_format (output format_type : string)
    (json_loaded : result pyval) (yaml_error xml_error : option string)
  : result unit :=
  if String.eqb format_type "json" then
    match json_loaded with
    | Raise (JSONDecodeError e) => Raise (AssertionError [Text ("Invalid JSON: " +:+ e)])
    | Raise e => Raise e
    | Ok _ => Ok ()
    end
  else if String.eqb format_type "yaml" then
    match yaml_error with
    | Some e => Raise (AssertionError [Text ("Invalid YAML: " +:+ e)])
    | None => Ok ()
    end
  else if String.eqb format_type "markdown" then
    py_assert (existsb (λ marker, Str.contains marker output) markdown_markers)
      [Text "Output does not appear to be Markdown"]
  else if String.eqb format_type "html" then
    py_assert (Str.contains "<" output && Str.contains ">" output)
      [Text "Output does not appear to be HTML"]
  else if String.eqb format_type "xml" then
    match xml_error with
    | Some e => Raise (AssertionError [Text ("Invalid XML: " +:+ e)])
    | None => Ok ()
    end
  else Raise (ValueError ("Unknown format: " +:+ format_type)).

Definition assert_list_length (items : list pyval) (expected_length : Z)
    (mode : string) : result unit :=
  let actual_length := Z.of_nat (length items) in
  if String.eqb mode "exact" then
    py_assert (actual_length =? expected_length)%Z
      [Text ("List length " +:+ PyStr.of_Z actual_length +:+ ", expected "
             +:+ PyStr.of_Z expected_length)]
  else if String.eqb mode "min" then
    py_assert (expected_length <=? actual_length)%Z
      [Text ("List length " +:+ PyStr.of_Z actual_length +:+ ", expected >= "
             +:+ PyStr.of_Z expected_length)]
  else if String.eqb mode "max" then
    py_assert (actual_length <=? expected_length)%Z
      [Text ("List length " +:+ PyStr.of_Z actual_length +:+ ", expected <= "
             +:+ PyStr.of_Z expected_length)]
  else Raise (ValueError ("Unknown mode: " +:+ mode)).

Definition no_match_message (i : nat) (pattern item : string) : message :=
  [Text ("Item " +:+ PyStr.of_nat i +:+ " does not match pattern "
         +:+ quoted pattern +:+ ": " +:+ item)].

(** The loop of [assert_all_items_match], from the index [i]. *)
Fixpoint all_items_from (i : nat) (items : list string) (pattern : string)
  : result unit :=
  match items with
  | [] => Ok ()
  | item :: rest =>
      hit ← re_search pattern item false;
      _ ← py_assert hit (no_match_message i pattern item);
      all_items_from (S i) rest pattern
  end.

Definition assert_all_items_match (items : list string) (pattern : string)
  : result unit :=
  all_items_from 0 items pattern.

(** The loop of [assert_any_item_matches]: [true] when it returns early. *)
Fixpoint any_item (items : list string) (pattern : string) : result bool :=
  match items with
  | [] => Ok false
  | item :: rest =>
      hit ← re_search pattern item false;
      if hit : bool then Ok true else any_item rest pattern
  end.

Definition assert_any_item_matches (items : list string) (pattern : string)
  : result unit :=
  found ← any_item items pattern;
  if found : bool then Ok ()
  else Raise (AssertionError
         [Text ("No item matches pattern " +:+ quoted pattern +:+ " in list: "
                +:+ PyStr.repr_list items)]).

(** ** mocks.py, the LiteLLM adapter *)

(** The object [LiteLLMMock.completion] builds. *)
Record LiteLLMCompletion := {
  lite_content : string;
  lite_role : string;
  lite_model : string;
  lite_total_tokens : Z;
  lite_prompt_tokens : Z;
  lite_completion_tokens : Z;
}.

Definition litellm_completion (self : MockLLM) (messages : list (gmap string pyval))
    (kwargs : gmap string pyval) : MockLLM * result LiteLLMCompletion :=
  let user_message :=
    match last_user messages with
    | Some msg => content_of msg
    | None => PStr ""
    end in
  let '(self', r) := forward self user_message kwargs in
  (self',
   response ← r;
   Ok {| lite_content := content response;
         lite_role := "assistant";
         lite_model := model response;
         lite_total_tokens := tokens_used response;
         lite_prompt_tokens := tokens_used response `div` 2;
         lite_completion_tokens := tokens_used response `div` 2 |}).

(** ** reporter.py *)

(** [TestReporter._escape_xml(text)] *)
Definition _escape_xml (text : string) : string :=
  PyStr.replace "'" "&apos;"
    (PyStr.replace (String PyStr.quote2 "") "&quot;"
       (PyStr.replace ">" "&gt;"
          (PyStr.replace "<" "&lt;"
             (PyStr.replace "&" "&amp;" text)))).

(** The Details cell of [_report_console] for a result with this [error]. *)
Definition console_details (error : option string) : string :=
  let details :=
    match error with
    | Some e => if String.eqb e "" then "OK" else e
    | None => "OK"
    end in
  if (50 <? String.length details)%nat
  then PyStr.take 47 details +:+ "..."
  else details.

(** ** agent_test.py, running a test

    The code of the user (setup, test body, teardown) is given by what a
    call of it does, as [run_test] sees it: it returns, or it raises an
    exception of one of three kinds with the text [str(e)]. The clock is
    given by what was read from it. *)

Inductive exc_kind :=
| KAssertion   (* an AssertionError *)
| KException   (* another Exception *)
| KBase.       (* a BaseException that is no Exception *)

Inductive outcome (A : Type) :=
| Returns (a : A)
| Raises (kind : exc_kind) (text : string).
Arguments Returns {A} a.
Arguments Raises {A} kind text.

Record TestResult := {
  test_name : string;
  status : string;
  duration : spec_float;
  agent_output : pyval;
  expected_output : pyval;
  error : option string;
  result_metadata : gmap string pyval;
  timestamp : string;
}.

(** One run of a test function: what its three parts do, and the clock. *)
Record invocation := {
  setup_out : outcome unit;
  body_out : outcome pyval;
  teardown_out : outcome unit;
  elapsed : spec_float;
  stamp : string;
}.

(** The [try] block: [self.setup()], then [test_func(self)]. *)
Definition attempt (inv : invocation) : outcome pyval :=
  match setup_out inv with
  | Raises kind text => Raises kind text
  | Returns _ => body_out inv
  end.

Definition passed_result (name : string) (doc : option string)
    (inv : invocation) (output : pyval) : TestResult :=
  {| test_name := name; status := "passed"; duration := elapsed inv;
     agent_output := output; expected_output := PNone; error := None;
     result_metadata := {["test_doc" := PStr (default "" doc)]};
     timestamp := stamp inv |}.

Definition failed_result (name : string) (inv : invocation) (text : string)
  : TestResult :=
  {| test_name := name; status := "failed"; duration := elapsed inv;
     agent_output := PNone; expected_output := PNone; error := Some text;
     result_metadata := ∅; timestamp := stamp inv |}.

(** [AgentTest.run_test(test_func)] on an instance whose [results] are
    [results], for a function of this [__name__] and [__doc__]: the new
    [results], and what the call returns or raises. *)
Definition run_test (results : list TestResult) (name : string)
    (doc : option string) (inv : invocation)
  : list TestResult * outcome TestResult :=
  let handled : outcome TestResult :=
    match attempt inv with
    | Returns output => Returns (passed_result name doc inv output)
    | Raises KAssertion text => Returns (failed_result name inv text)
    | Raises KException text =>
        Returns (failed_result name inv ("Unexpected error: " +:+ text))
    | Raises KBase text => Raises KBase text
    end in
  match teardown_out inv with
  | Raises kind text => (results, Raises kind text)
  | Returns _ =>
      match handled with
      | Returns test_result => (results ++ [test_result], Returns test_result)
      | Raises kind text => (results, Raises kind text)
      end
  end.

(** A callable attribute of a test instance (a function, a bound method
    or a class), with the marks the decorators leave on it.
    [method_name] and [method_doc] are its [__name__] and [__doc__]; the
    name need not be the one under which the instance has it. [invoke]
    tells what a run through [run_test] does: without a parameter set
    the call is [test_method(self)], the bound method applied to the
    instance once more, and with a parameter set it is the method called
    with the set as keyword arguments. [skip_stamp] is the time read when
    the result of a skipped method is built. *)
Record TestMethod := {
  method_name : string;
  method_doc : option string;
  _is_agent_test : bool;
  _skip_reason : option string;
  _parametrize : option (list (gmap string pyval));
  invoke : option (gmap string pyval) → invocation;
  skip_stamp : string;
}.

Definition test_agent (func : TestMethod) : TestMethod :=
  {| method_name := method_name func; method_doc := method_doc func;
     _is_agent_test := true;
     _skip_reason := _skip_reason func; _parametrize := _parametrize func;
     invoke := invoke func; skip_stamp := skip_stamp func |}.

Definition skip_test (reason : string) (func : TestMethod) : TestMethod :=
  {| method_name := method_name func; method_doc := method_doc func;
     _is_agent_test := _is_agent_test func;
     _skip_reason := Some reason; _parametrize := _parametrize func;
     invoke := invoke func; skip_stamp := skip_stamp func |}.

Definition parametrize (params : list (gmap string pyval)) (func : TestMethod)
  : TestMethod :=
  {| method_name := method_name func; method_doc := method_doc func;
     _is_agent_test := _is_agent_test func;
     _skip_reason := _skip_reason func; _parametrize := Some params;
     invoke := invoke func; skip_stamp := skip_stamp func |}.

(** ** runner.py *)

(** An attribute of a test instance: a callable, or a value that is
    none and has no [__name__]. *)
Inductive attribute :=
| Callable (m : TestMethod)
| Data (value : pyval).

(** [bool(value)] *)
Definition truthy (value : pyval) : bool :=
  match value with
  | PNone => false
  | PBool b => b
  | PInt z => negb (z =? 0)%Z
  | PFloat (S754_zero _) => false
  | PFloat _ => true
  | PStr s => negb (String.eqb s "")
  | PList l => negb (bool_decide (l = []))
  | PDict d => negb (bool_decide (d = ∅))
  end.

(** [str(e)] for the [AttributeError] of [value.__name__]. *)
Definition no_name_text (value : pyval) : string :=
  "'" +:+ type_name value +:+ "' object has no attribute '__name__'".

Definition skipped_result (m : TestMethod) (reason : string) : TestResult :=
  {| test_name := method_name m; status := "skipped"; duration := Float.zero;
     agent_output := PNone; expected_output := PNone; error := Some reason;
     result_metadata := ∅; timestamp := skip_stamp m |}.

(** The loop over the parameter sets of one method: each set is run
    through a [lambda], whose name is what the result carries. *)
Fixpoint run_parametrized (instance : list TestResult) (m : TestMethod)
    (sets : list (gmap string pyval)) (results : list TestResult)
  : list TestResult * outcome (list TestResult) :=
  match sets with
  | [] => (instance, Returns results)
  | params :: rest =>
      match run_test instance "<lambda>" None (invoke m (Some params)) with
      | (instance', Returns r) => run_parametrized instance' m rest (results ++ [r])
      | (instance', Raises kind text) => (instance', Raises kind text)
      end
  end.

(** The loop of [_run_test_class] over [test_methods]. *)
Fixpoint run_methods (instance : list TestResult) (methods : list TestMethod)
    (results : list TestResult) : list TestResult * outcome (list TestResult) :=
  match methods with
  | [] => (instance, Returns results)
  | m :: rest =>
      if _is_agent_test m then
        match _skip_reason m with
        | Some reason => run_methods instance rest (results ++ [skipped_result m reason])
        | None =>
            match _parametrize m with
            | Some sets =>
                match run_parametrized instance m sets results with
                | (instance', Returns results') => run_methods instance' rest results'
                | (instance', Raises kind text) => (instance', Raises kind text)
                end
            | None =>
                match run_test instance (method_name m) (method_doc m) (invoke m None) with
                | (instance', Returns r) => run_methods instance' rest (results ++ [r])
                | (instance', Raises kind text) => (instance', Raises kind text)
                end
            end
        end
      else run_methods instance rest results
  end.

(** The list [test_methods] of [_run_test_class]: the attributes whose
    name in [dir()] starts with [test_] and that are callable. *)
Definition test_methods (attributes : list (string * attribute)) : list TestMethod :=
  omap (λ entry : string * attribute,
          if String.prefix "test_" entry.1
          then match entry.2 with
               | Callable m => Some m
               | Data _ => None
               end
          else None) attributes.

(** [TestRunner._run_test_class(test_instance)]: [attributes] are the
    attributes of the instance by name, in the order of [dir()], and
    [instance] its [results]. *)
Definition _run_test_class (instance : list TestResult)
    (attributes : list (string * attribute))
  : list TestResult * outcome (list TestResult) :=
  run_methods instance (test_methods attributes) [].

Definition count_status (s : string) (results : list TestResult) : nat :=
  length (filter (λ r, status r = s) results).

Record Summary := {
  total : nat;
  passed : nat;
  failed : nat;
  skipped : nat;
  summary_duration : spec_float;
}.

(** A test class: its name and the attributes of an instance of it,
    which it builds without raising. *)
Definition TestClass : Type := string * list (string * attribute).

(** The loop of [run_all] over [self.test_classes]; every class gets a
    new instance. *)
Fixpoint run_classes (classes : list TestClass)
    (all_results : list TestResult) (total_passed total_failed total_skipped : nat)
  : outcome (list TestResult * (nat * nat * nat)) :=
  match classes with
  | [] => Returns (all_results, (total_passed, total_failed, total_skipped))
  | (_, attributes) :: rest =>
      match (_run_test_class [] attributes).2 with
      | Raises kind text => Raises kind text
      | Returns results =>
          run_classes rest (all_results ++ results)
            (total_passed + count_status "passed" results)
            (total_failed + count_status "failed" results)
            (total_skipped + count_status "skipped" results)
      end
  end.

(** [TestRunner.run_all()], with the time it took. *)
Definition run_all (classes : list TestClass) (took : spec_float)
  : outcome (list TestResult * Summary) :=
  match run_classes classes [] 0 0 0 with
  | Raises kind text => Raises kind text
  | Returns (all_results, (p, f, s)) =>
      Returns (all_results,
               {| total := length all_results; passed := p; failed := f;
                  skipped := s; summary_duration := took |})
  end.

(** [sum(r.duration for r in results)] *)
Definition sum_durations (results : list TestResult) : spec_float :=
  foldl (λ acc r, SFadd Float.prec Float.emax acc (duration r)) Float.zero results.

(** [TestRunner.run_test(test_class_name, test_method_name)]; the summary
    is absent where the source answers an empty dictionary. [getattr]
    finds any attribute of that name: one that is false counts as not
    found, and one that is true goes to [AgentTest.run_test], which asks
    for its [__name__] before anything else. *)
Definition runner_run_test (classes : list TestClass) (test_class_name : string)
    (test_method_name : option string)
  : outcome (list TestResult * option Summary) :=
  match list_find (λ c : TestClass, c.1 = test_class_name) classes with
  | None => Returns ([], None)
  | Some (_, (_, attributes)) =>
      let by_name :=
        match test_method_name with
        | Some name => if String.eqb name "" then None else Some name
        | None => None
        end in
      match by_name with
      | Some name =>
          match list_find (λ entry : string * attribute, entry.1 = name) attributes with
          | None => Returns ([], None)
          | Some (_, (_, Data value)) =>
              if truthy value then Raises KException (no_name_text value)
              else Returns ([], None)
          | Some (_, (_, Callable m)) =>
              match (run_test [] (method_name m) (method_doc m) (invoke m None)).2 with
              | Raises kind text => Raises kind text
              | Returns r =>
                  Returns ([r],
                    Some {| total := 1;
                            passed := if String.eqb (status r) "passed" then 1 else 0;
                            failed := if String.eqb (status r) "failed" then 1 else 0;
                            skipped := 0;
                            summary_duration := duration r |})
              end
          end
      | None =>
          match (_run_test_class [] attributes).2 with
          | Raises kind text => Raises kind text
          | Returns results =>
              Returns (results,
                Some {| total := length results;
                        passed := count_status "passed" results;
                        failed := count_status "failed" results;
                        skipped := count_status "skipped" results;
                        summary_duration := sum_durations results |})
          end
      end
  end.

(** ** Notions and sample data of the statements below *)

Definition unsatisfied (prompt : pyval) (kwargs : gmap string pyval)
    (entry : matcher * MockResponse) : Prop :=
  satisfied entry.1 prompt kwargs = Ok false.

(** The scenario of the specification: two patterns [.*test.*], the first
    answering "A" and the second "B", and the prompt "this is a test". *)
Definition two_patterns : result MockLLM :=
  m ← add_pattern new_mock ".*test.*" (inl "A");
  add_pattern m ".*test.*" (inl "B").

(** A matcher function that raises. *)
Definition failing_matcher : pyval → gmap string pyval → result bool :=
  λ _ _, Raise (UserError (PStr "broken")).

(** In the words of the specification: the share of the words of a
    sentence that a document holds. *)
Definition spec_overlap_share (words doc_words : gset string) : spec_float :=
  SFdiv Float.prec Float.emax
    (Float.of_nat (size (words ∩ doc_words))) (Float.of_nat (size words)).

(** In the words of the specification: a sentence is grounded when, for
    some source document, more than half of its lowercased words are in the
    lowercased word set of that document. *)
Definition spec_grounded (source_docs : list string) (sentence : string) : bool :=
  existsb (λ doc,
    Float.gt (spec_overlap_share (Str.words sentence) (Str.words doc)) Float.half)
    source_docs.

(** In the words of the specification: the number of grounded sentences
    over the number of sentences, and 0 when there is no sentence. *)
Definition spec_grounding_ratio (output : string) (source_docs : list string)
  : spec_float :=
  let sentences := sentences_of output in
  match sentences with
  | [] => Float.zero
  | _ =>
      SFdiv Float.prec Float.emax
        (Float.of_nat (length (filter (λ s, spec_grounded source_docs s = true) sentences)))
        (Float.of_nat (length sentences))
  end.

(** In the words of the specification: the score of the similarity check. *)
Definition spec_similarity (output expected : string) : spec_float :=
  SFdiv Float.prec Float.emax
    (Float.of_nat (size (Str.words output ∩ Str.words expected)))
    (Float.of_nat (size (Str.words expected))).

(** The text of a message without floats. *)
Definition message_text (msg : message) : string :=
  match msg with
  | [Text s] => s
  | _ => ""
  end.

Definition assertion_outcome (r : result unit) : Prop :=
  r = Ok () ∨ raises_assertion r.

(** A schema that asks for ["name"] and lists it under ["properties"], and
    one that only asks for it. *)
Definition schema_listed : schema :=
  Schema (Some "object") (Some [("name", Schema (Some "string") None None)])
    (Some ["name"]).
Definition schema_unlisted : schema :=
  Schema (Some "object") None (Some ["name"]).

(** A resolver with the one pattern [test], and the pattern compiled. *)
Definition test_pattern_mock : result MockLLM :=
  add_pattern new_mock "test" (inl "found").
Definition test_regex : Re.regex :=
  Re.Cat (Re.Lit "t") (Re.Cat (Re.Lit "e") (Re.Cat (Re.Lit "s") (Re.Lit "t"))).

Definition text_block (text : string) : pyval :=
  PDict (<["type" := PStr "text"]> (<["text" := PStr text]> ∅)).

Definition user_message (content : pyval) : gmap string pyval :=
  <["role" := PStr "user"]> (<["content" := content]> ∅).

(** One user message whose content has two text parts. *)
Definition multipart_messages : list (gmap string pyval) :=
  [user_message (PList [text_block "Hello"; text_block "world"])].

Definition hello_world_mock : MockLLM :=
  add_response new_mock "Hello world" (inl "Hi there!").

Definition hello_messages : list (gmap string pyval) :=
  [user_message (PStr "Hello world")].

(** What the OpenAI adapter answers to "Hello world" on [hello_world_mock]. *)
Definition hello_completion : ChatCompletion :=
  {| choice_content := "Hi there!"; choice_role := "assistant";
     finish_reason := "stop"; completion_model := "gpt-4";
     total_tokens := 100; prompt_tokens := 50; completion_tokens := 50 |}.

(** A run of calls of [get_response], whatever each returns or raises. *)
Definition after_calls (self : MockLLM) (calls : list (pyval * gmap string pyval))
  : MockLLM :=
  foldl (λ m call, (get_response m call.1 call.2).1) self calls.

Definition record_of (call : pyval * gmap string pyval) : CallRecord :=
  {| call_prompt := call.1; call_kwargs := call.2 |}.

(** Some character of [s] satisfies [ok]. *)
Fixpoint any_char (ok : ascii → bool) (s : string) : bool :=
  match s with
  | EmptyString => false
  | String c s' => ok c || any_char ok s'
  end.

Definition all_chars : list ascii := ascii_of_nat <$> seq 0 256.

Definition every_char (ok : ascii → bool) : bool := forallb ok all_chars.

(** A sufficient check on the syntax tree that every match of a pattern
    reads at least one character that satisfies [ok]. *)
Fixpoint reads_one_of (ic : bool) (ok : ascii → bool) (r : Re.regex) : bool :=
  match r with
  | Re.Lit c => every_char (λ x, implb (Re.item_match ic (Re.IChar c) x) (ok x))
  | Re.Dot => every_char (λ x, implb (negb (Ascii.eqb x "010")) (ok x))
  | Re.Set_ neg items => every_char (λ x, implb (Re.set_match ic neg items x) (ok x))
  | Re.Cat a b => reads_one_of ic ok a || reads_one_of ic ok b
  | Re.Alt a b => reads_one_of ic ok a && reads_one_of ic ok b
  | _ => false
  end.

(** What [_escape_xml] makes of one character, in the words of its
    docstring: the five special characters become their entities. *)
Definition xml_entity (c : ascii) : string :=
  if Ascii.eqb c "&" then "&amp;"
  else if Ascii.eqb c "<" then "&lt;"
  else if Ascii.eqb c ">" then "&gt;"
  else if Ascii.eqb c PyStr.quote2 then "&quot;"
  else if Ascii.eqb c "'" then "&apos;"
  else String c "".

(** [f] applied to every character of [s], the results joined. *)
Fixpoint map_chars (f : ascii → string) (s : string) : string :=
  match s with
  | EmptyString => EmptyString
  | String c s' => f c +:+ map_chars f s'
  end.

Definition is_xml_special (c : ascii) : bool :=
  Ascii.eqb c "&" || Ascii.eqb c "<" || Ascii.eqb c ">" ||
  Ascii.eqb c PyStr.quote2 || Ascii.eqb c "'".

(** The names of the results that [_run_test_class] owes to one method:
    none without the mark of [test_agent], one under its [__name__] when
    it is skipped or plain, and one per parameter set, under the name of
    the [lambda], when it is parametrized. *)
Definition names_due (m : TestMethod) : list string :=
  if _is_agent_test m then
    match _skip_reason m, _parametrize m with
    | Some _, _ => [method_name m]
    | None, Some sets => replicate (length sets) "<lambda>"
    | None, None => [method_name m]
    end
  else [].

Definition known_status (r : TestResult) : Prop :=
  status r = "passed" ∨ status r = "failed" ∨ status r = "skipped".

(** A run in which setup, test and teardown return, and a class of five
    callables: a helper, a plain test, a skipped one, a parametrized one
    and one without the mark of [test_agent]; and a class that has one
    marked function under two names, next to a list. *)
Definition passing : invocation :=
  {| setup_out := Returns (); body_out := Returns PNone; teardown_out := Returns ();
     elapsed := Float.zero; stamp := "" |}.

Definition plain_method (name : string) : TestMethod :=
  {| method_name := name; method_doc := None; _is_agent_test := false;
     _skip_reason := None; _parametrize := None;
     invoke := λ _, passing; skip_stamp := "" |}.

Definition sample_class : list (string * attribute) :=
  [("helper", Callable (plain_method "helper"));
   ("test_a", Callable (test_agent (plain_method "test_a")));
   ("test_b", Callable (skip_test "later" (test_agent (plain_method "test_b"))));
   ("test_c", Callable (parametrize [∅; ∅] (test_agent (plain_method "test_c"))));
   ("test_d", Callable (plain_method "test_d"))].

Definition alias_class : list (string * attribute) :=
  [("data", Data (PList [PInt 1]));
   ("helper", Callable (test_agent (plain_method "helper")));
   ("test_alias", Callable (test_agent (plain_method "helper")))].

Definition sample_results : list TestResult :=
  [passed_result "test_a" None passing PNone;
   skipped_result (plain_method "test_b") "later";
   passed_result "<lambda>" None passing PNone;
   passed_result "<lambda>" None passing PNone].

(** ** The matcher and the match relation *)

Section ReFacts.
Import Re.
Context (ic : bool).

Lemma flat_map_elem {A B} (f : A → list B) (l : list A) (y : B) :
  y ∈ flat_map f l ↔ ∃ x, x ∈ l ∧ y ∈ f x.
Proof.
  rewrite list_elem_of_In, in_flat_map.
  by setoid_rewrite list_elem_of_In.
Qed.

Lemma elem_of_step ok p q :
  q ∈ step ok p ↔ ∃ c s, p.2 = String c s ∧ ok c = true ∧ q = (Some c, s).
Proof.
  unfold step. destruct p as [prev [|c s]]; simpl.
  - rewrite elem_of_nil. split; [done |]. intros (? & ? & ? & ?). congruence.
  - destruct (ok c) eqn:Hok.
    + rewrite list_elem_of_singleton. split.
      * intros ->. by exists c, s.
      * intros (c' & s' & [= <- <-] & _ & ->). done.
    + rewrite elem_of_nil. split; [done |].
      intros (c' & s' & [= <- <-] & ? & ?). congruence.
Qed.

Lemma elem_of_check ok p q : q ∈ check ok p ↔ ok = true ∧ q = p.
Proof.
  unfold check. destruct ok.
  - rewrite list_elem_of_singleton. split; [by intros -> | by intros [_ ->]].
  - rewrite elem_of_nil. split; [done |]. intros [? ?]. congruence.
Qed.

Lemma iter_sound a :
  (∀ p q, q ∈ ends ic a p → Matches ic a p q) →
  ∀ fuel p q, q ∈ iter (ends ic a) fuel p → Matches ic (Star a) p q.
Proof.
  intros IH fuel. induction fuel as [|n IHn]; intros p q; simpl.
  - rewrite list_elem_of_singleton. intros ->. constructor.
  - rewrite elem_of_cons. intros [-> | Hq]; [constructor |].
    apply flat_map_elem in Hq as (m & Hm & Hq).
    apply list_elem_of_filter in Hm as [_ Hm].
    eapply M_star_more; eauto.
Qed.

Lemma ends_sound r : ∀ p q, q ∈ ends ic r p → Matches ic r p q.
Proof.
  induction r as [| c | | neg items | a IHa b IHb | a IHa b IHb | a IHa | | | neg];
    intros p q; simpl.
  - rewrite list_elem_of_singleton. intros ->. constructor.
  - intros (x & s & Hp & Hok & ->)%elem_of_step.
    destruct p as [prev rest]; simpl in Hp; subst. by constructor.
  - intros (x & s & Hp & Hok & ->)%elem_of_step.
    destruct p as [prev rest]; simpl in Hp; subst. constructor.
    intros ->. discriminate.
  - intros (x & s & Hp & Hok & ->)%elem_of_step.
    destruct p as [prev rest]; simpl in Hp; subst. by constructor.
  - intros (m & Hm & Hq)%flat_map_elem. econstructor; eauto.
  - rewrite elem_of_app. intros [?|?]; [apply M_alt_l | apply M_alt_r]; auto.
  - apply iter_sound. exact IHa.
  - intros [? ->]%elem_of_check. by constructor.
  - intros [? ->]%elem_of_check. by constructor.
  - intros [? ->]%elem_of_check. by constructor.
Qed.

(** A match moves forward: it ends where it began, or leaves less to read. *)
Lemma Matches_progress r p q :
  Matches ic r p q → q = p ∨ (String.length q.2 < String.length p.2)%nat.
Proof.
  induction 1; simpl; auto; try (right; lia).
  - destruct IHMatches1 as [-> | ?], IHMatches2 as [-> | ?]; auto; right; lia.
  - destruct IHMatches1 as [-> | ?], IHMatches2 as [-> | ?]; auto; right; lia.
Qed.

Lemma iter_here f fuel p : p ∈ iter f fuel p.
Proof. destruct fuel; simpl; apply elem_of_cons; auto. Qed.

Lemma iter_mono f n m p q : (n ≤ m)%nat → q ∈ iter f n p → q ∈ iter f m p.
Proof.
  revert m p q. induction n as [|n IH]; intros m p q Hle; simpl.
  - rewrite list_elem_of_singleton. intros ->. apply iter_here.
  - destruct m as [|m]; [lia |]. simpl. rewrite !elem_of_cons.
    intros [-> | Hq]; [by left | right].
    apply flat_map_elem in Hq as (x & Hx & Hq).
    apply flat_map_elem. exists x. split; [done |].
    apply IH; [lia | done].
Qed.

Lemma shorter_spec p q :
  shorter p q = true ↔ (String.length q.2 < String.length p.2)%nat.
Proof. unfold shorter. apply Nat.ltb_lt. Qed.

Lemma ends_complete r p q : Matches ic r p q → q ∈ ends ic r p.
Proof.
  induction 1 as [p | c x prev s Hok | x prev s Hx | neg items x prev s Hok
                 | a b p q r _ IHa _ IHb | a b p q _ IH | a b p q _ IH
                 | a p | a p q r Ha IHa _ IHs | p H | p H | neg p H]; simpl.
  - by apply list_elem_of_singleton.
  - apply elem_of_step. by exists x, s.
  - apply elem_of_step. exists x, s. split_and!; [done | | done].
    apply negb_true_iff, Ascii.eqb_neq. done.
  - apply elem_of_step. by exists x, s.
  - apply flat_map_elem. eauto.
  - apply elem_of_app. auto.
  - apply elem_of_app. auto.
  - apply iter_here.
  - simpl in IHs.
    destruct (Matches_progress _ _ _ Ha) as [-> | Hlt]; [done |].
    destruct (String.length p.2) as [|n] eqn:Hn; [lia |].
    simpl. apply elem_of_cons. right.
    apply flat_map_elem. exists q. split.
    + apply list_elem_of_filter. split; [| done].
      apply Is_true_true, shorter_spec. lia.
    + eapply iter_mono; [| exact IHs]. lia.
  - by apply elem_of_check.
  - by apply elem_of_check.
  - by apply elem_of_check.
Qed.

Lemma nonempty_spec {A} (l : list A) : nonempty l = true ↔ ∃ x, x ∈ l.
Proof.
  destruct l as [|x l]; simpl.
  - split; [done |]. intros [x Hx]. by apply elem_of_nil in Hx.
  - split; [| done]. intros _. exists x. by left.
Qed.

Lemma match_spec r s : match_ ic r s = true ↔ matches_at_start ic r s.
Proof.
  unfold match_, matches_at_start. rewrite nonempty_spec.
  split; intros [q Hq]; exists q; [by apply ends_sound | by apply ends_complete].
Qed.

Lemma append_nil_l (s : string) : "" +:+ s = s.
Proof. reflexivity. Qed.

Lemma append_cons c (a b : string) : String c a +:+ b = String c (a +:+ b).
Proof. reflexivity. Qed.

Lemma search_from_spec r s prev :
  search_from ic r prev s = true ↔
  ∃ pre post q, s = pre +:+ post ∧ Matches ic r (advance prev pre, post) q.
Proof.
  revert prev. induction s as [|c s IH]; intros prev; simpl.
  - rewrite orb_false_r, nonempty_spec. split.
    + intros [q Hq%ends_sound]. by exists "", "", q.
    + intros (pre & post & q & Heq & Hq).
      destruct pre; [| by rewrite append_cons in Heq].
      rewrite append_nil_l in Heq. simpl in Hq. subst post.
      exists q. by apply ends_complete.
  - rewrite orb_true_iff, nonempty_spec, IH. split.
    + intros [[q Hq%ends_sound] | (pre & post & q & -> & Hq)].
      * by exists "", (String c s), q.
      * by exists (String c pre), post, q.
    + intros (pre & post & q & Heq & Hq). destruct pre as [|c' pre].
      * rewrite append_nil_l in Heq. simpl in Hq. subst post.
        left. exists q. by apply ends_complete.
      * rewrite append_cons in Heq. injection Heq as <- ->.
        right. by exists pre, post, q.
Qed.

Lemma search_spec r s : search ic r s = true ↔ matches_somewhere ic r s.
Proof. apply search_from_spec. Qed.

(** A match at the start is a match somewhere. *)
Lemma match_search r s : match_ ic r s = true → search ic r s = true.
Proof.
  unfold search, match_. destruct s; simpl; intros ->; done.
Qed.
End ReFacts.

(** ** The resolver *)

Lemma scan_skip pre rest default prompt kwargs :
  Forall (unsatisfied prompt kwargs) pre →
  scan (pre ++ rest) default prompt kwargs = scan rest default prompt kwargs.
Proof.
  induction 1 as [|[m r] pre Hm _ IH]; [done |].
  simpl. unfold unsatisfied in Hm. simpl in Hm. by rewrite Hm.
Qed.

Lemma scan_hit m response rest default prompt kwargs :
  satisfied m prompt kwargs = Ok true →
  scan ((m, response) :: rest) default prompt kwargs = Ok response.
Proof. intros H. simpl. by rewrite H. Qed.

Lemma scan_total rs default prompt kwargs :
  Forall (λ entry, ∃ b, satisfied entry.1 prompt kwargs = Ok b) rs →
  ∃ response, scan rs default prompt kwargs = Ok response ∧
    (response = wrap default ∨
     ∃ m, (m, response) ∈ rs ∧ satisfied m prompt kwargs = Ok true).
Proof.
  induction 1 as [|[m r] rs [b Hb] _ IH]; simpl in *.
  - eauto.
  - rewrite Hb. simpl. destruct b.
    + exists r. split; [done |]. right. exists m. split; [by left | done].
    + destruct IH as (r' & -> & [-> | (m' & Hin & Hs)]).
      * eauto.
      * exists r'. split; [done |]. right. exists m'. split; [by right | done].
Qed.

(** C1. [get_response] returns the response of the first entry of
    [responses], in the order of registration, whose test succeeds (the
    tests before it having answered no), and the default response when every
    test answers no; of two entries that both succeed it returns the
    response of the one registered first. When no test raises it always
    returns one of these. *)
Theorem get_response_first_match (self : MockLLM) (prompt : pyval)
    (kwargs : gmap string pyval) :
  (∀ pre m response post,
      responses self = pre ++ (m, response) :: post →
      Forall (unsatisfied prompt kwargs) pre →
      satisfied m prompt kwargs = Ok true →
      (get_response self prompt kwargs).2 = Ok response) ∧
  (Forall (unsatisfied prompt kwargs) (responses self) →
      (get_response self prompt kwargs).2 = Ok (wrap (default_response self))) ∧
  (∀ pre m1 r1 mid m2 r2 post,
      responses self = pre ++ (m1, r1) :: mid ++ (m2, r2) :: post →
      Forall (unsatisfied prompt kwargs) pre →
      satisfied m1 prompt kwargs = Ok true →
      satisfied m2 prompt kwargs = Ok true →
      (get_response self prompt kwargs).2 = Ok r1) ∧
  (Forall (λ entry, ∃ b, satisfied entry.1 prompt kwargs = Ok b) (responses self) →
      ∃ response, (get_response self prompt kwargs).2 = Ok response).
Proof.
  unfold get_response; simpl. split_and!.
  - intros pre m response post -> Hpre Hm.
    rewrite scan_skip by done. by apply scan_hit.
  - intros Hall. rewrite <- (app_nil_r (responses self)).
    by rewrite scan_skip.
  - intros pre m1 r1 mid m2 r2 post -> Hpre Hm1 _.
    rewrite scan_skip by done. by apply scan_hit.
  - intros Hall. destruct (scan_total _ (default_response self) _ _ Hall)
      as (response & Hr & _). eauto.
Qed.

Lemma get_response_first_match_witness :
  ∃ self p,
    two_patterns = Ok self ∧
    responses self = [(Pattern p, mock_response "A"); (Pattern p, mock_response "B")] ∧
    (get_response self (PStr "this is a test") ∅).2 = Ok (mock_response "A").
Proof.
  eexists _, _. split; [vm_compute; reflexivity |]. split; [reflexivity |].
  eapply (proj1 (proj2 (proj2 (get_response_first_match _ (PStr "this is a test") ∅)))
            [] _ _ [] _ _ []).
  - reflexivity.
  - constructor.
  - vm_compute. reflexivity.
  - vm_compute. reflexivity.
Defined.

(** C4. Every call of [get_response] appends one record, the prompt and the
    keyword arguments, to [call_history], whatever the call returns or
    raises: the record is appended before the entries are tried. *)
Theorem get_response_counts_once (self : MockLLM) (prompt : pyval)
    (kwargs : gmap string pyval) :
  call_history (get_response self prompt kwargs).1 =
    call_history self ++ [{| call_prompt := prompt; call_kwargs := kwargs |}] ∧
  get_call_count (get_response self prompt kwargs).1 = S (get_call_count self) ∧
  get_last_call (get_response self prompt kwargs).1 =
    Some {| call_prompt := prompt; call_kwargs := kwargs |} ∧
  responses (get_response self prompt kwargs).1 = responses self ∧
  default_response (get_response self prompt kwargs).1 = default_response self.
Proof.
  unfold get_response, get_call_count, get_last_call; simpl.
  split_and!; try done.
  - rewrite length_app. simpl. lia.
  - apply last_snoc.
Qed.

(** The count grows when the call falls through to the default response and
    when a matcher function raises. *)
Lemma get_response_counts_examples :
  let m := add_response new_mock "test" (inl "response") in
  let m1 := (get_response m (PStr "test") ∅).1 in
  let m2 := (get_response m1 (PStr "other") ∅).1 in
  let m3 := (get_response m2 (PStr "another") ∅).1 in
  let broken := add_function_response m3 failing_matcher (inl "never") in
  get_call_count m3 = 3 ∧
  (get_response m2 (PStr "another") ∅).2 = Ok (mock_response "Mock response") ∧
  (get_response broken (PStr "x") ∅).2 = Raise (UserError (PStr "broken")) ∧
  get_call_count (get_response broken (PStr "x") ∅).1 = 4.
Proof. vm_compute. done. Qed.

(** C6. [reset] empties the history and leaves the entries and the default
    response as they were. *)
Theorem reset_clears_history (self : MockLLM) :
  get_call_count (reset self) = 0 ∧
  call_history (reset self) = [] ∧
  get_last_call (reset self) = None ∧
  responses (reset self) = responses self ∧
  default_response (reset self) = default_response self.
Proof. done. Qed.

(** ** Strings *)

Ltac by_cases_on_char c :=
  destruct c as [[] [] [] [] [] [] [] []]; vm_compute; reflexivity.

Lemma char_lower_idemp c : Char.lower (Char.lower c) = Char.lower c.
Proof. by_cases_on_char c. Qed.

Lemma char_lower_space c : Char.is_space (Char.lower c) = Char.is_space c.
Proof. by_cases_on_char c. Qed.

Lemma lower_idemp s : Str.lower (Str.lower s) = Str.lower s.
Proof. induction s as [|c s IH]; simpl; [done |]. by rewrite char_lower_idemp, IH. Qed.

Lemma words_lower s : Str.words (Str.lower s) = Str.words s.
Proof. unfold Str.words. by rewrite lower_idemp. Qed.

Lemma contains_empty s : Str.contains "" s = true.
Proof. by destruct s. Qed.

Lemma prefix_app_l n a b : String.prefix n a = true → String.prefix n (a +:+ b) = true.
Proof.
  revert a. induction n as [|c n IH]; intros a; [by destruct (a +:+ b) |].
  destruct a as [|c' a]; [done |].
  rewrite append_cons. simpl. destruct (ascii_dec c c'); [apply IH | done].
Qed.

Lemma prefix_refl n : String.prefix n n = true.
Proof. induction n as [|c n IH]; simpl; [done |]. by destruct (ascii_dec c c). Qed.

Lemma contains_refl n : Str.contains n n = true.
Proof. destruct n; cbn [Str.contains]; by rewrite prefix_refl. Qed.

Lemma contains_app_l n a b : Str.contains n a = true → Str.contains n (a +:+ b) = true.
Proof.
  induction a as [|c a IH].
  - destruct n as [|c n]; [intros _; apply contains_empty | done].
  - rewrite append_cons. cbn [Str.contains]. rewrite !orb_true_iff.
    intros [H | H]; [left | right; auto].
    by apply (prefix_app_l n (String c a) b).
Qed.

Lemma contains_app_r n a b : Str.contains n b = true → Str.contains n (a +:+ b) = true.
Proof.
  intros H. induction a as [|c a IH]; [done |].
  rewrite append_cons. cbn [Str.contains]. rewrite IH. apply orb_true_r.
Qed.

Lemma contains_join n sep parts :
  n ∈ parts → Str.contains n (Str.join sep parts) = true.
Proof.
  induction parts as [|p parts IH]; [by intros ?%elem_of_nil |].
  rewrite elem_of_cons. intros [-> | Hin].
  - destruct parts; simpl; [apply contains_refl |].
    apply contains_app_l, contains_refl.
  - destruct parts as [|q parts]; [by apply elem_of_nil in Hin |].
    change (Str.join sep (p :: q :: parts))
      with (p +:+ sep +:+ Str.join sep (q :: parts)).
    by apply contains_app_r, contains_app_r, IH.
Qed.

Lemma lstrip_head s c t : Str.lstrip s = String c t → Char.is_space c = false.
Proof.
  induction s as [|x s IH]; simpl; [done |].
  destruct (Char.is_space x) eqn:Hx; [done |]. by intros [= <- _].
Qed.

Lemma rstrip_head c t :
  Char.is_space c = false → ∃ t', Str.rstrip (String c t) = String c t'.
Proof. intros Hc. simpl. rewrite Hc. destruct (Str.rstrip t); eauto. Qed.

Lemma strip_head s : Str.strip s ≠ "" →
  ∃ c t, Str.strip s = String c t ∧ Char.is_space c = false.
Proof.
  unfold Str.strip. destruct (Str.lstrip s) as [|c t] eqn:Hl; [done |].
  intros _. pose proof (lstrip_head _ _ _ Hl) as Hc.
  destruct (rstrip_head c t Hc) as [t' ->]. eauto.
Qed.

Lemma split_from_open cur s : cur ≠ "" → Str.split_from cur s ≠ [].
Proof.
  revert cur. induction s as [|c s IH]; intros cur Hcur; simpl.
  - by destruct cur.
  - destruct (Char.is_space c).
    + by destruct cur.
    + apply IH. by destruct cur.
Qed.

Lemma words_nonempty s c t :
  s = String c t → Char.is_space c = false → size (Str.words s) ≠ 0.
Proof.
  intros -> Hc. unfold Str.words, Str.split. simpl.
  rewrite char_lower_space, Hc.
  destruct (Str.split_from _ _) as [|w ws] eqn:Hw.
  - by apply split_from_open in Hw.
  - rewrite list_to_set_cons, size_non_empty_iff. set_solver.
Qed.

Lemma sentence_has_words output sentence :
  sentence ∈ sentences_of output → size (Str.words sentence) ≠ 0.
Proof.
  unfold sentences_of. intros [Hne Hin]%list_elem_of_filter.
  apply list_elem_of_fmap in Hin as (piece & -> & _).
  destruct (strip_head piece Hne) as (c & t & Heq & Hc).
  by eapply words_nonempty.
Qed.

(** ** Floats *)

Lemma truediv_nonzero a b :
  b ≠ 0 → Float.truediv a b =
    Ok (SFdiv Float.prec Float.emax (Float.of_nat a) (Float.of_nat b)).
Proof. by destruct b. Qed.

Lemma zero_below_positive t :
  Float.gt t Float.zero = true → Float.ge Float.zero t = false.
Proof.
  unfold Float.gt, Float.ge, Float.zero, SFltb, SFleb.
  destruct t as [s | s | | s m e]; simpl; try done; by destruct s.
Qed.

(** ** Containment *)

(** C10. [assert_not_contains] with an empty [unexpected] raises for every
    output, case-sensitive or not. *)
Theorem assert_not_contains_empty (output : string) (case_sensitive : bool) :
  raises_assertion (assert_not_contains output "" case_sensitive).
Proof.
  unfold assert_not_contains, raises_assertion.
  destruct case_sensitive; simpl; rewrite contains_empty; simpl; eauto.
Qed.

(** ** Similarity *)

Lemma py_assert_passes cond msg : passes (py_assert cond msg) ↔ cond = true.
Proof. unfold passes, py_assert. destruct cond; split; done. Qed.

Lemma py_assert_raises cond msg : cond = false → raises_assertion (py_assert cond msg).
Proof. intros ->. by exists msg. Qed.

Lemma size_nonzero (X : gset string) : size X ≠ 0 ↔ X ≠ ∅.
Proof. rewrite size_non_empty_iff. by unfold_leibniz. Qed.

Lemma calculate_similarity_empty str1 str2 :
  Str.words str2 = ∅ → _calculate_similarity str1 str2 = Ok Float.zero.
Proof. intros H. unfold _calculate_similarity. by rewrite decide_True. Qed.

Lemma calculate_similarity_score str1 str2 :
  Str.words str2 ≠ ∅ → _calculate_similarity str1 str2 = Ok (spec_similarity str1 str2).
Proof.
  intros H. unfold _calculate_similarity. rewrite decide_False by done.
  apply truediv_nonzero. by apply size_nonzero.
Qed.

Lemma calculate_similarity_lower str1 str2 :
  _calculate_similarity (Str.lower str1) (Str.lower str2) = _calculate_similarity str1 str2.
Proof. unfold _calculate_similarity. by rewrite !words_lower. Qed.

Lemma similarity_mode output expected case_sensitive :
  assert_agent_response output expected "similarity" case_sensitive =
    (score ← _calculate_similarity output expected;
     py_assert (Float.ge score Float.f0_8)
       [Text "Similarity score "; Fixed2 score;
        Text (" < 0.8" +:+ Str.nl +:+ "Output: "
              +:+ (if case_sensitive then output else Str.lower output) +:+ Str.nl
              +:+ "Expected: "
              +:+ (if case_sensitive then expected else Str.lower expected))]).
Proof.
  unfold assert_agent_response. destruct case_sensitive; simpl; [done |].
  by rewrite calculate_similarity_lower.
Qed.

(** C2, as the code has it. The score is the number of words of [expected]
    that [output] holds over the number of words of [expected], both taken
    as sets of lowercased whitespace-separated words. When [expected] has no
    word, [_calculate_similarity] answers 0.0, so the similarity mode of
    [assert_agent_response] raises; [AgentTest.assert_similarity] is the
    check that passes then. *)
Theorem similarity_score (output expected : string) :
  (Str.words expected ≠ ∅ →
     _calculate_similarity output expected = Ok (spec_similarity output expected)) ∧
  (Str.words expected = ∅ →
     _calculate_similarity output expected = Ok Float.zero ∧
     (∀ case_sensitive,
        raises_assertion (assert_agent_response output expected "similarity" case_sensitive)) ∧
     (∀ min_score, passes (assert_similarity output expected min_score))) ∧
  (∀ case_sensitive,
     passes (assert_agent_response output expected "similarity" case_sensitive) ↔
     ∃ score, _calculate_similarity output expected = Ok score ∧
              Float.ge score Float.f0_8 = true) ∧
  (Str.words expected ≠ ∅ → ∀ min_score,
     passes (assert_similarity output expected min_score) ↔
     Float.ge (spec_similarity output expected) min_score = true).
Proof.
  split_and!.
  - apply calculate_similarity_score.
  - intros Hempty. split_and!.
    + by apply calculate_similarity_empty.
    + intros cs. rewrite similarity_mode, calculate_similarity_empty by done.
      simpl. eexists. reflexivity.
    + intros min_score. unfold assert_similarity. by rewrite decide_True.
  - intros cs. rewrite similarity_mode.
    destruct (_calculate_similarity output expected) as [score | e]; simpl.
    + rewrite py_assert_passes. split; [eauto |]. by intros (? & [= <-] & ?).
    + split; [done |]. by intros (? & ? & _).
  - intros Hne min_score. unfold assert_similarity.
    rewrite decide_False by done.
    rewrite truediv_nonzero by (by apply size_nonzero). simpl.
    apply py_assert_passes.
Qed.

Lemma similarity_score_witness :
  _calculate_similarity "the quick fox" "quick fox" =
    Ok (spec_similarity "the quick fox" "quick fox") ∧
  passes (assert_agent_response "the quick fox" "quick fox" "similarity" false).
Proof.
  split.
  - apply (proj1 (similarity_score "the quick fox" "quick fox")).
    apply size_nonzero. vm_compute. discriminate.
  - apply (proj1 (proj2 (proj2 (similarity_score "the quick fox" "quick fox")))).
    eexists. split; vm_compute; reflexivity.
Defined.

(** The claim fails on an [expected] without words: the similarity mode
    raises where the claim lets it pass. *)
Lemma similarity_empty_expected_raises :
  Str.words "" = ∅ ∧
  ¬ passes (assert_agent_response "the quick fox" "" "similarity" false) ∧
  raises_assertion (assert_agent_response "the quick fox" "" "similarity" false).
Proof.
  split_and!.
  - vm_compute. reflexivity.
  - vm_compute. discriminate.
  - eexists. vm_compute. reflexivity.
Qed.

(** ** Grounding *)

Lemma grounded_in_spec sentence source_docs :
  size (Str.words sentence) ≠ 0 →
  grounded_in (Str.words sentence) source_docs = Ok (spec_grounded source_docs sentence).
Proof.
  intros Hw. unfold spec_grounded.
  induction source_docs as [|doc rest IH]; simpl; [done |].
  rewrite truediv_nonzero by done. simpl.
  fold (spec_overlap_share (Str.words sentence) (Str.words doc)).
  destruct (Float.gt _ Float.half); [done | exact IH].
Qed.

Lemma count_grounded_spec n sentences source_docs :
  Forall (λ s, size (Str.words s) ≠ 0) sentences →
  count_grounded n sentences source_docs =
    Ok (n + length (filter (λ s, spec_grounded source_docs s = true) sentences)).
Proof.
  intros H. revert n. induction H as [|s rest Hs _ IH]; intros n; simpl.
  - f_equal. lia.
  - rewrite grounded_in_spec by done. simpl. rewrite IH.
    rewrite filter_cons. destruct (spec_grounded source_docs s) eqn:Hg.
    + rewrite decide_True by done. simpl. f_equal. lia.
    + rewrite decide_False by done. done.
Qed.

Lemma grounding_ratio_spec output source_docs :
  grounding_ratio output source_docs = Ok (spec_grounding_ratio output source_docs).
Proof.
  unfold grounding_ratio, spec_grounding_ratio.
  rewrite count_grounded_spec.
  - simpl. destruct (sentences_of output) as [|s rest]; [done |].
    by apply truediv_nonzero.
  - apply Forall_forall. intros s. apply sentence_has_words.
Qed.

(** C3. On an output without sentences the grounding ratio is 0 and
    [assert_no_hallucination] raises for every threshold above 0. In general
    the ratio is the number of grounded sentences over the number of
    sentences, and the assertion passes exactly when the ratio is at least
    the threshold. *)
Theorem no_hallucination_ratio (output : string) (source_docs : list string)
    (threshold : spec_float) :
  grounding_ratio output source_docs = Ok (spec_grounding_ratio output source_docs) ∧
  (passes (assert_no_hallucination output source_docs threshold) ↔
     Float.ge (spec_grounding_ratio output source_docs) threshold = true) ∧
  (Float.ge (spec_grounding_ratio output source_docs) threshold = false →
     raises_assertion (assert_no_hallucination output source_docs threshold)) ∧
  (sentences_of output = [] →
     spec_grounding_ratio output source_docs = Float.zero ∧
     (Float.gt threshold Float.zero = true →
        raises_assertion (assert_no_hallucination output source_docs threshold))).
Proof.
  assert (Hraise : Float.ge (spec_grounding_ratio output source_docs) threshold = false →
     raises_assertion (assert_no_hallucination output source_docs threshold)).
  { intros H. unfold assert_no_hallucination.
    rewrite grounding_ratio_spec. simpl. rewrite H. eexists. reflexivity. }
  split_and!.
  - apply grounding_ratio_spec.
  - unfold assert_no_hallucination. rewrite grounding_ratio_spec. simpl.
    apply py_assert_passes.
  - exact Hraise.
  - intros Hnil.
    assert (Hzero : spec_grounding_ratio output source_docs = Float.zero).
    { unfold spec_grounding_ratio. by rewrite Hnil. }
    split; [done |]. intros Hpos. apply Hraise.
    rewrite Hzero. by apply zero_below_positive.
Qed.

Lemma no_hallucination_ratio_witness :
  sentences_of "   " = [] ∧
  raises_assertion (assert_no_hallucination "   " ["PraisonAI is a testing framework"] Float.f0_7).
Proof.
  split; [vm_compute; reflexivity |].
  apply (proj2 (proj2 (proj2 (no_hallucination_ratio "   "
           ["PraisonAI is a testing framework"] Float.f0_7)))).
  - vm_compute. reflexivity.
  - vm_compute. reflexivity.
Defined.

(** ** Personal data *)

Lemma find_pii_spec patterns output found :
  find_pii patterns output = Ok found →
  ∀ name, name ∈ found ↔
    ∃ pattern r, (name, pattern) ∈ patterns ∧ Re.compile pattern = Some r ∧
                 Re.search false r output = true.
Proof.
  revert found. induction patterns as [|[pii_type pattern] rest IH]; intros found; simpl.
  - intros [= <-] name. rewrite elem_of_nil. split; [done |].
    intros (? & ? & []%elem_of_nil & _).
  - unfold re_search.
    destruct (Re.compile pattern) as [r|] eqn:Hc; simpl; [| done].
    destruct (find_pii rest output) as [found' | e]; simpl; [| done].
    intros [= <-] name. specialize (IH found' eq_refl name).
    destruct (Re.search false r output) eqn:Hs.
    + rewrite elem_of_cons, IH. split.
      * intros [-> | (p & r' & Hin & Hc' & Hs')].
        -- exists pattern, r. split_and!; [by left | done | done].
        -- exists p, r'. split_and!; [by right | done | done].
      * intros (p & r' & Hin & Hc' & Hs').
        apply elem_of_cons in Hin as [[= -> ->] | Hin]; [by left |].
        right. eauto.
    + rewrite IH. split.
      * intros (p & r' & Hin & Hc' & Hs'). exists p, r'. split_and!; [by right | done | done].
      * intros (p & r' & Hin & Hc' & Hs').
        apply elem_of_cons in Hin as [[= -> ->] | Hin]; [congruence |]. eauto.
Qed.

Lemma find_pii_total patterns output :
  Forall (λ entry, is_Some (Re.compile entry.2)) patterns →
  ∃ found, find_pii patterns output = Ok found.
Proof.
  induction 1 as [|[pii_type pattern] rest [r Hr] _ [found IH]]; simpl; [eauto |].
  unfold re_search. simpl in Hr. rewrite Hr. simpl. rewrite IH. simpl. eauto.
Qed.

Lemma pii_patterns_compile :
  Forall (λ entry, is_Some (Re.compile entry.2)) pii_patterns.
Proof. repeat constructor; vm_compute; eauto. Qed.

(** C7. [assert_no_pii] passes exactly when none of the four patterns
    matches anywhere in the output; when it raises, the message names the
    categories with a match, all of them, in the order of the table. *)
Theorem no_pii_categories (output : string) :
  ∃ found_pii,
    find_pii pii_patterns output = Ok found_pii ∧
    (∀ name, name ∈ found_pii ↔
       ∃ pattern r, (name, pattern) ∈ pii_patterns ∧ Re.compile pattern = Some r ∧
                    Re.matches_somewhere false r output) ∧
    (passes (assert_no_pii output) ↔
       ∀ name pattern r, (name, pattern) ∈ pii_patterns → Re.compile pattern = Some r →
                         ¬ Re.matches_somewhere false r output) ∧
    (found_pii ≠ [] →
       assert_no_pii output = Raise (AssertionError (pii_message found_pii output)) ∧
       ∀ name, name ∈ found_pii →
         Str.contains name (message_text (pii_message found_pii output)) = true) ∧
    assert_no_pii "Email me at a@b.com" =
      Raise (AssertionError (pii_message ["email"] "Email me at a@b.com")) ∧
    assert_no_pii "nothing sensitive here" = Ok ().
Proof.
  destruct (find_pii_total pii_patterns output pii_patterns_compile) as [found Hfound].
  pose proof (find_pii_spec _ _ _ Hfound) as Hspec.
  exists found. split_and!.
  - done.
  - intros name. rewrite Hspec. by setoid_rewrite search_spec.
  - unfold assert_no_pii. rewrite Hfound. simpl.
    rewrite py_assert_passes, bool_decide_eq_true. split.
    + intros -> name pattern r Hin Hc Hm.
      apply (elem_of_nil name), Hspec. exists pattern, r.
      split_and!; [done | done |]. by apply search_spec.
    + intros Hnone. destruct found as [|name rest]; [done |]. exfalso.
      destruct (proj1 (Hspec name)) as (pattern & r & Hin & Hc & Hs); [by left |].
      apply (Hnone name pattern r Hin Hc). by apply search_spec.
  - intros Hne. split.
    + unfold assert_no_pii. rewrite Hfound. simpl.
      by rewrite bool_decide_eq_false_2.
    + intros name Hin. unfold pii_message, message_text.
      apply contains_app_r, contains_app_l. by apply contains_join.
  - vm_compute. reflexivity.
  - vm_compute. reflexivity.
Qed.

Lemma no_pii_categories_witness :
  assert_no_pii "Email me at a@b.com" =
    Raise (AssertionError (pii_message ["email"] "Email me at a@b.com")) ∧
  Str.contains "email" (message_text (pii_message ["email"] "Email me at a@b.com")) = true.
Proof.
  destruct (no_pii_categories "Email me at a@b.com")
    as (found & Hfound & _ & _ & Hraise & _).
  assert (Heq : found = ["email"]).
  { vm_compute in Hfound. by injection Hfound as <-. }
  subst found. destruct Hraise as [Hmsg Hlist]; [done |].
  split; [exact Hmsg | apply Hlist; by left].
Defined.

(** ** JSON *)

(** Induction on a schema and on the schemas of its properties. *)
Lemma schema_induction (P : schema → Prop) :
  (∀ type_ properties required,
      match properties with
      | Some props => Forall (λ property, P property.2) props
      | None => True
      end → P (Schema type_ properties required)) →
  ∀ sch, P sch.
Proof.
  intros step. fix IH 1. intros [type_ properties required].
  apply step. destruct properties as [props|]; [| exact I].
  induction props as [|property rest IHrest]; constructor; [apply IH | exact IHrest].
Qed.

Lemma check_type_outcome type_ data : assertion_outcome (check_type type_ data).
Proof.
  unfold check_type, assertion_outcome, raises_assertion.
  destruct type_ as [t|]; [| by left].
  destruct (instance_of t data) as [[]|]; simpl; eauto.
Qed.

Lemma for_each_outcome {A} (body : A → result unit) items :
  Forall (λ x, assertion_outcome (body x)) items →
  assertion_outcome (for_each body items).
Proof.
  induction 1 as [|x rest Hx _ IH]; simpl; [by left |].
  destruct Hx as [-> | [msg ->]]; simpl; [done |]. right. by exists msg.
Qed.

Lemma check_property_outcome validate d required property :
  (∀ v, assertion_outcome (validate v property.2)) →
  assertion_outcome (check_property validate d required property).
Proof.
  destruct property as [key value_schema]. simpl. intros Hvalue.
  unfold check_property.
  destruct (is_required required key); simpl.
  - case_bool_decide as Hd; simpl.
    + destruct (d !! key); [apply Hvalue | by left].
    + right. eexists. reflexivity.
  - destruct (d !! key); [apply Hvalue | by left].
Qed.

Lemma validate_outcome sch : ∀ data, assertion_outcome (_validate_schema data sch).
Proof.
  induction sch as [type_ properties required IH] using schema_induction.
  intros data. simpl.
  destruct (check_type_outcome type_ data) as [-> | [msg ->]]; simpl;
    [| right; by exists msg].
  destruct properties as [props|]; [| by left].
  destruct data as [| | | | | | d]; try by left.
  apply for_each_outcome.
  eapply Forall_impl; [exact IH |].
  intros property Hvalue. by apply check_property_outcome.
Qed.

Lemma for_each_cons {A} (body : A → result unit) x rest :
  for_each body (x :: rest) = (body x ≫= λ _, for_each body rest).
Proof. reflexivity. Qed.

Lemma for_each_skip {A} (body : A → result unit) pre rest :
  Forall (λ x, body x = Ok ()) pre →
  for_each body (pre ++ rest) = for_each body rest.
Proof. induction 1 as [|x pre Hx _ IH]; simpl; [done |]. by rewrite Hx. Qed.

Lemma for_each_fails {A} (body : A → result unit) items x :
  x ∈ items → raises_assertion (body x) →
  Forall (λ y, assertion_outcome (body y)) items →
  raises_assertion (for_each body items).
Proof.
  intros Hin Hx Hall. induction Hall as [|y rest Hy _ IH]; [by apply elem_of_nil in Hin |].
  simpl. destruct Hy as [Hy | [msg Hy]]; rewrite Hy; simpl; [| by exists msg].
  apply elem_of_cons in Hin as [-> | Hin]; [| by apply IH].
  destruct Hx as [msg Hx]. congruence.
Qed.

Lemma check_property_missing validate d required key value_schema :
  key ∈ required → d !! key = None →
  check_property validate d (Some required) (key, value_schema) =
    Raise (AssertionError (missing_message key)).
Proof.
  intros Hreq Hd. unfold check_property, is_required.
  rewrite bool_decide_eq_true_2 by done. rewrite Hd.
  rewrite bool_decide_eq_false_2 by (by intros [? ?]). done.
Qed.

(** C8, as the code has it. Without a schema every decoded value passes; a
    decoding error becomes an assertion error that carries its text. A name
    under ["required"] is looked for only while the loop goes over
    ["properties"]: when it is a key of ["properties"] too and the decoded
    object lacks it, the assertion raises, and the message is the one that
    names the property when the type test and the properties before it
    pass. *)
Theorem json_valid_required :
  (∀ data, passes (assert_json_valid (Ok data) None)) ∧
  (∀ e sch,
     assert_json_valid (Raise (JSONDecodeError e)) sch =
       Raise (AssertionError [Text ("Output is not valid JSON: " +:+ e)])) ∧
  (∀ d type_ props required key value_schema,
     (key, value_schema) ∈ props → key ∈ required → d !! key = None →
     raises_assertion
       (assert_json_valid (Ok (PDict d))
          (Some (Schema type_ (Some props) (Some required))))) ∧
  (∀ d type_ pre key value_schema post required,
     key ∈ required → d !! key = None →
     check_type type_ (PDict d) = Ok () →
     Forall (λ property,
       check_property _validate_schema d (Some required) property = Ok ()) pre →
     assert_json_valid (Ok (PDict d))
       (Some (Schema type_ (Some (pre ++ (key, value_schema) :: post)) (Some required))) =
       Raise (AssertionError (missing_message key))).
Proof.
  split_and!.
  - done.
  - done.
  - intros d type_ props required key value_schema Hin Hreq Hd. simpl.
    destruct (check_type_outcome type_ (PDict d)) as [-> | [msg ->]]; simpl;
      [| by exists msg].
    eapply for_each_fails; [exact Hin | |].
    + exists (missing_message key). by apply check_property_missing.
    + apply Forall_forall. intros property _.
      apply check_property_outcome. intros v. apply validate_outcome.
  - intros d type_ pre key value_schema post required Hreq Hd Hty Hpre. simpl.
    rewrite Hty. simpl. rewrite for_each_skip by done.
    by rewrite for_each_cons, check_property_missing.
Qed.

Lemma json_valid_required_witness :
  assert_json_valid (Ok (PDict ∅)) (Some schema_listed) =
    Raise (AssertionError (missing_message "name")).
Proof.
  apply (proj2 (proj2 (proj2 json_valid_required)) ∅ (Some "object") []
           "name" (Schema (Some "string") None None) [] ["name"]).
  - by left.
  - reflexivity.
  - reflexivity.
  - constructor.
Defined.

(** The claim fails on a name that is required and not listed: the empty
    object passes. *)
Lemma json_valid_required_unlisted :
  assert_json_valid (Ok (PDict ∅)) (Some schema_unlisted) = Ok () ∧
  ¬ raises_assertion (assert_json_valid (Ok (PDict ∅)) (Some schema_unlisted)).
Proof. split; [reflexivity |]. intros [msg Hmsg]. discriminate. Qed.

(** ** Pattern entries *)

(** C5. The test of a pattern entry succeeds exactly when the pattern,
    compiled without flags, matches the prompt from its first character on;
    a match that starts later does not count, and neither does one that
    differs in case. *)
Theorem pattern_matcher_anchored (p : Re.regex) (prompt : string)
    (kwargs : gmap string pyval) :
  satisfied (Pattern p) (PStr prompt) kwargs = Ok (Re.match_ false p prompt) ∧
  (satisfied (Pattern p) (PStr prompt) kwargs = Ok true ↔
     Re.matches_at_start false p prompt) ∧
  (satisfied (Pattern p) (PStr prompt) kwargs = Ok false ↔
     ¬ Re.matches_at_start false p prompt) ∧
  (∀ self response rest,
     responses self = (Pattern p, response) :: rest →
     (Re.matches_at_start false p prompt →
        (get_response self (PStr prompt) kwargs).2 = Ok response) ∧
     (¬ Re.matches_at_start false p prompt →
        (get_response self (PStr prompt) kwargs).2 =
          scan rest (default_response self) (PStr prompt) kwargs)) ∧
  (∀ self pattern response self',
     add_pattern self pattern response = Ok self' →
     ∃ p', Re.compile pattern = Some p' ∧
           responses self' = responses self ++ [(Pattern p', wrap response)]) ∧
  (∃ self p',
     test_pattern_mock = Ok self ∧ responses self = [(Pattern p', mock_response "found")] ∧
     Re.matches_somewhere false p' "this is a test" ∧
     ¬ Re.matches_at_start false p' "this is a test" ∧
     (get_response self (PStr "this is a test") ∅).2 = Ok (mock_response "Mock response") ∧
     (get_response self (PStr "test this") ∅).2 = Ok (mock_response "found") ∧
     (get_response self (PStr "Test this") ∅).2 = Ok (mock_response "Mock response")).
Proof.
  assert (Htrue : satisfied (Pattern p) (PStr prompt) kwargs = Ok true ↔
                  Re.matches_at_start false p prompt).
  { simpl. rewrite <- match_spec. split; [by intros [= ->] | by intros ->]. }
  split_and!.
  - done.
  - exact Htrue.
  - rewrite <- Htrue. simpl. destruct (Re.match_ false p prompt); split; try done.
    all: intros H; by destruct H.
  - intros self response rest Hresp. unfold get_response. simpl. rewrite Hresp.
    simpl. rewrite <- match_spec.
    destruct (Re.match_ false p prompt); simpl; split; try done.
    all: intros H; by destruct H.
  - intros self pattern response self'. unfold add_pattern.
    destruct (Re.compile pattern) as [p'|]; [| done].
    intros [= <-]. by exists p'.
  - eexists _, _. split; [vm_compute; reflexivity |]. split; [reflexivity |].
    split_and!.
    + apply search_spec. vm_compute. reflexivity.
    + rewrite <- match_spec. vm_compute. discriminate.
    + vm_compute. reflexivity.
    + vm_compute. reflexivity.
    + vm_compute. reflexivity.
Qed.

Lemma pattern_matcher_anchored_witness :
  test_pattern_mock = Ok (with_matcher new_mock (Pattern test_regex) (mock_response "found")) ∧
  (get_response (with_matcher new_mock (Pattern test_regex) (mock_response "found"))
     (PStr "this is a test") ∅).2 = Ok (mock_response "Mock response").
Proof.
  split; [vm_compute; reflexivity |].
  rewrite (proj2 (proj1 (proj2 (proj2 (proj2
             (pattern_matcher_anchored test_regex "this is a test" ∅))))
             (with_matcher new_mock (Pattern test_regex) (mock_response "found"))
             (mock_response "found") [] eq_refl)).
  - reflexivity.
  - rewrite <- match_spec. vm_compute. discriminate.
Defined.

(** ** Provider adapters *)

Lemma join_text_blocks texts :
  join_blocks (text_block <$> texts) = Ok (PStr (Str.join " " texts)).
Proof.
  unfold join_blocks.
  assert (H1 : mapM block_text_of (text_block <$> texts) = Ok (PStr <$> texts)).
  { induction texts as [|t ts IH]; [done |].
    rewrite fmap_cons. cbn [mapM]. rewrite IH. reflexivity. }
  assert (H2 : mapM as_str (PStr <$> texts) = Ok texts).
  { clear H1. induction texts as [|t ts IH]; [done |].
    rewrite fmap_cons. cbn [mapM]. rewrite IH. reflexivity. }
  rewrite H1. simpl. rewrite H2. reflexivity.
Qed.

(** What each adapter hands to [get_response] as the prompt. *)
Lemma adapter_prompts messages msg :
  last_user messages = Some msg →
  openai_user_message messages = content_of msg ∧
  (∀ s, content_of msg = PStr s → anthropic_user_message messages = Ok (PStr s)) ∧
  (∀ texts, content_of msg = PList (text_block <$> texts) →
     anthropic_user_message messages = Ok (PStr (Str.join " " texts))).
Proof.
  intros Hlast. unfold openai_user_message, anthropic_user_message. rewrite Hlast.
  split_and!; [done | by intros s -> | intros texts ->; apply join_text_blocks].
Qed.

(** Both adapters record the keyword arguments as they got them. *)
Lemma adapters_forward_kwargs self messages kwargs :
  kwargs !! "prompt" = None →
  get_last_call (openai_create self messages kwargs).1 =
    Some {| call_prompt := openai_user_message messages; call_kwargs := kwargs |} ∧
  (∀ user_message, anthropic_user_message messages = Ok user_message →
     get_last_call (anthropic_create self messages kwargs).1 =
       Some {| call_prompt := user_message; call_kwargs := kwargs |}).
Proof.
  intros Hk. unfold openai_create, anthropic_create, forward.
  rewrite bool_decide_eq_false_2 by (rewrite Hk; by intros [? ?]).
  split.
  - simpl. apply last_snoc.
  - intros user_message ->. simpl. apply last_snoc.
Qed.

(** C9 at a message with two text parts: the Anthropic adapter hands
    "Hello world" to [get_response] and gets the registered answer; the
    OpenAI adapter hands the list itself, which no exact entry equals and on
    which a pattern entry raises. *)
Theorem openai_create_multipart :
  call_prompt <$> get_last_call (anthropic_create hello_world_mock multipart_messages ∅).1
    = Some (PStr "Hello world") ∧
  block_text <$> (anthropic_create hello_world_mock multipart_messages ∅).2
    = Ok "Hi there!" ∧
  call_prompt <$> get_last_call (openai_create hello_world_mock multipart_messages ∅).1
    = Some (PList [text_block "Hello"; text_block "world"]) ∧
  choice_content <$> (openai_create hello_world_mock multipart_messages ∅).2
    = Ok "Mock response" ∧
  (two_patterns ≫= λ self, (openai_create self multipart_messages ∅).2)
    = Raise TypeError.
Proof. split_and!; vm_compute; reflexivity. Qed.

(** ** Further properties *)

(** The default response. A resolver that was never configured answers an
    unmatched prompt with "Mock response" and the default figures; after
    [set_default_response] an unmatched prompt gets the new default. *)
Theorem default_response_fallback (prompt : pyval) (kwargs : gmap string pyval) :
  (get_response new_mock prompt kwargs).2 = Ok (mock_response "Mock response") ∧
  (∀ self response,
     Forall (unsatisfied prompt kwargs) (responses self) →
     (get_response (set_default_response self response) prompt kwargs).2 =
       Ok (wrap response)).
Proof.
  split; [done |]. intros self response Hall.
  unfold get_response. simpl.
  rewrite <- (app_nil_r (responses self)). by rewrite scan_skip.
Qed.

Lemma default_response_fallback_witness :
  (get_response
     (set_default_response (add_response new_mock "test" (inl "response"))
        (inl "Default response"))
     (PStr "unmatched prompt") ∅).2 = Ok (mock_response "Default response").
Proof.
  apply (proj2 (default_response_fallback (PStr "unmatched prompt") ∅)
           (add_response new_mock "test" (inl "response")) (inl "Default response")).
  repeat constructor.
Defined.

(** An exception of a matcher function leaves [get_response] as it is,
    when the entries before it answered no. *)
Theorem matcher_exception_propagates (self : MockLLM) (prompt : pyval)
    (kwargs : gmap string pyval) pre f response post e :
  responses self = pre ++ (Function f, response) :: post →
  Forall (unsatisfied prompt kwargs) pre →
  f prompt kwargs = Raise e →
  (get_response self prompt kwargs).2 = Raise e.
Proof.
  intros Hresp Hpre Hf. unfold get_response. simpl. rewrite Hresp.
  rewrite scan_skip by done. simpl. by rewrite Hf.
Qed.

Lemma matcher_exception_propagates_witness :
  (get_response
     (add_function_response (add_response new_mock "test" (inl "response"))
        failing_matcher (inl "never"))
     (PStr "x") ∅).2 = Raise (UserError (PStr "broken")).
Proof.
  apply (matcher_exception_propagates _ (PStr "x") ∅
           [(Exact "test", mock_response "response")] failing_matcher
           (mock_response "never") []).
  - reflexivity.
  - repeat constructor.
  - reflexivity.
Defined.

(** The token figures of the answers: the two halves are [tokens_used // 2]
    each, and the OpenAI shape also carries the total. *)
Theorem usage_split_evenly (self : MockLLM) (messages : list (gmap string pyval))
    (kwargs : gmap string pyval) :
  (∀ c, (openai_create self messages kwargs).2 = Ok c →
     ∃ response,
       (forward self (openai_user_message messages) kwargs).2 = Ok response ∧
       choice_content c = content response ∧
       total_tokens c = tokens_used response ∧
       prompt_tokens c = (tokens_used response `div` 2)%Z ∧
       completion_tokens c = (tokens_used response `div` 2)%Z) ∧
  (∀ m, (anthropic_create self messages kwargs).2 = Ok m →
     ∃ user_message response,
       anthropic_user_message messages = Ok user_message ∧
       (forward self user_message kwargs).2 = Ok response ∧
       block_text m = content response ∧
       input_tokens m = (tokens_used response `div` 2)%Z ∧
       output_tokens m = (tokens_used response `div` 2)%Z).
Proof.
  split.
  - intros c. unfold openai_create.
    destruct (forward self (openai_user_message messages) kwargs) as [self' [response | e]];
      simpl; [| done].
    intros [= <-]. by exists response.
  - intros m. unfold anthropic_create.
    destruct (anthropic_user_message messages) as [user_message | e]; [| done].
    destruct (forward self user_message kwargs) as [self' [response | e]] eqn:Hf;
      simpl; [| done].
    intros [= <-]. exists user_message, response. by rewrite Hf.
Qed.

Lemma usage_split_evenly_witness :
  (openai_create hello_world_mock hello_messages ∅).2 = Ok hello_completion ∧
  ∃ response,
    (forward hello_world_mock (openai_user_message hello_messages) ∅).2 = Ok response ∧
    prompt_tokens hello_completion = (tokens_used response `div` 2)%Z.
Proof.
  assert (H : (openai_create hello_world_mock hello_messages ∅).2 = Ok hello_completion)
    by (vm_compute; reflexivity).
  split; [exact H |].
  destruct (proj1 (usage_split_evenly hello_world_mock hello_messages ∅) _ H)
    as (response & Hr & _ & _ & Hp & _).
  by exists response.
Defined.

(** The regex mode of [assert_agent_response] searches the output for the
    pattern, anywhere, ignoring case unless [case_sensitive]; neither
    operand is lowercased. *)
Theorem regex_mode_searches (output expected : string) (case_sensitive : bool)
    (r : Re.regex) :
  Re.compile expected = Some r →
  (passes (assert_agent_response output expected "regex" case_sensitive) ↔
     Re.matches_somewhere (negb case_sensitive) r output).
Proof.
  intros Hc. unfold assert_agent_response. simpl.
  rewrite andb_false_r. simpl. unfold re_search. rewrite Hc. simpl.
  rewrite py_assert_passes. apply search_spec.
Qed.

Lemma regex_mode_searches_witness :
  passes (assert_agent_response "say TEST123 now" "test\d+" "regex" false).
Proof.
  destruct (Re.compile "test\d+") as [r|] eqn:Hc; [| vm_compute in Hc; discriminate].
  apply (proj2 (regex_mode_searches "say TEST123 now" "test\d+" false r Hc)).
  vm_compute in Hc. injection Hc as <-.
  apply search_spec. vm_compute. reflexivity.
Defined.

(** On a user message whose content is a string, both adapters hand that
    string to [get_response], with the keyword arguments as they came; the
    Anthropic adapter joins the texts of a list of text blocks with one
    space. *)
Theorem adapters_pass_last_user_content (self : MockLLM)
    (messages : list (gmap string pyval)) (kwargs : gmap string pyval)
    (msg : gmap string pyval) :
  last_user messages = Some msg →
  kwargs !! "prompt" = None →
  (∀ s, content_of msg = PStr s →
     get_last_call (openai_create self messages kwargs).1 =
       Some {| call_prompt := PStr s; call_kwargs := kwargs |} ∧
     get_last_call (anthropic_create self messages kwargs).1 =
       Some {| call_prompt := PStr s; call_kwargs := kwargs |}) ∧
  (∀ texts, content_of msg = PList (text_block <$> texts) →
     get_last_call (anthropic_create self messages kwargs).1 =
       Some {| call_prompt := PStr (Str.join " " texts); call_kwargs := kwargs |}).
Proof.
  intros Hlast Hk.
  destruct (adapter_prompts messages msg Hlast) as (Ho & Hs & Hl).
  destruct (adapters_forward_kwargs self messages kwargs Hk) as [Hopen Hanth].
  split.
  - intros s Hcontent. split.
    + by rewrite Hopen, Ho, Hcontent.
    + by apply Hanth, Hs.
  - intros texts Hcontent. by apply Hanth, Hl.
Qed.

Lemma adapters_pass_last_user_content_witness :
  get_last_call (openai_create hello_world_mock hello_messages
                   (<["temperature" := PInt 0]> ∅)).1 =
    Some {| call_prompt := PStr "Hello world";
            call_kwargs := <["temperature" := PInt 0]> ∅ |}.
Proof.
  assert (Hlast : last_user hello_messages = Some (user_message (PStr "Hello world")))
    by (vm_compute; reflexivity).
  assert (Hk : (<["temperature" := PInt 0]> ∅ : gmap string pyval) !! "prompt" = None)
    by (vm_compute; reflexivity).
  apply (proj1 (adapters_pass_last_user_content hello_world_mock hello_messages
                  _ _ Hlast Hk)).
  vm_compute. reflexivity.
Defined.

(** ** Registration *)

Lemma scan_app rs extra default prompt kwargs :
  scan (rs ++ extra) default prompt kwargs = scan rs default prompt kwargs ∨
  Forall (unsatisfied prompt kwargs) rs.
Proof.
  induction rs as [|[m r] rs IH]; [by right |].
  simpl. destruct (satisfied m prompt kwargs) as [[] | e] eqn:Hm; simpl.
  - by left.
  - destruct IH as [-> | Hall]; [by left | right]. by constructor.
  - by left.
Qed.

(** A registration only appends: the answer to a prompt changes only if
    every entry registered before answered no to it, and neither the
    history nor the default response is touched. *)
Theorem registration_appends_only (self : MockLLM) (m : matcher)
    (response : MockResponse) (prompt : pyval) (kwargs : gmap string pyval) :
  ((get_response (with_matcher self m response) prompt kwargs).2 =
     (get_response self prompt kwargs).2 ∨
   Forall (unsatisfied prompt kwargs) (responses self)) ∧
  call_history (with_matcher self m response) = call_history self ∧
  default_response (with_matcher self m response) = default_response self ∧
  (∀ key r, add_response self key r = with_matcher self (Exact key) (wrap r)) ∧
  (∀ f r, add_function_response self f r = with_matcher self (Function f) (wrap r)) ∧
  (∀ pattern r self', add_pattern self pattern r = Ok self' →
     ∃ p, self' = with_matcher self (Pattern p) (wrap r)).
Proof.
  split_and!; try done.
  - unfold get_response. simpl. apply scan_app.
  - intros pattern r self'. unfold add_pattern.
    destruct (Re.compile pattern) as [p|]; [| done]. intros [= <-]. by exists p.
Qed.

Lemma registration_appends_only_witness :
  ∃ p, with_matcher new_mock (Pattern test_regex) (mock_response "found") =
       with_matcher new_mock (Pattern p) (wrap (inl "found")).
Proof.
  apply (proj2 (proj2 (proj2 (proj2 (proj2
           (registration_appends_only new_mock (Exact "") (mock_response "") PNone ∅)))))
           "test" (inl "found")).
  vm_compute. reflexivity.
Defined.

Lemma scan_snoc_exact rs key response default prompt kwargs :
  prompt ≠ PStr key →
  scan (rs ++ [(Exact key, response)]) default prompt kwargs =
    scan rs default prompt kwargs.
Proof.
  intros Hne. induction rs as [|[m r] rs IH]; simpl.
  - destruct prompt as [| | | | s | |]; try done.
    destruct (String.eqb_spec s key) as [-> | _]; [done | done].
  - destruct (satisfied m prompt kwargs) as [[] | e]; simpl; auto.
Qed.

(** [add_response] and [get_response] as insert and lookup: the new key
    gets the new response when no entry before it answers the prompt, and
    every other prompt gets the answer it got before. *)
Theorem add_response_lookup (self : MockLLM) (key : string)
    (response : string + MockResponse) (kwargs : gmap string pyval) :
  (Forall (unsatisfied (PStr key) kwargs) (responses self) →
     (get_response (add_response self key response) (PStr key) kwargs).2 =
       Ok (wrap response)) ∧
  (∀ prompt, prompt ≠ PStr key →
     (get_response (add_response self key response) prompt kwargs).2 =
       (get_response self prompt kwargs).2).
Proof.
  split.
  - intros Hall. unfold get_response. simpl. rewrite scan_skip by done.
    simpl. by rewrite String.eqb_refl.
  - intros prompt Hne. unfold get_response. simpl. by apply scan_snoc_exact.
Qed.

Lemma add_response_lookup_witness :
  (get_response (add_response (add_response new_mock "first" (inl "response1"))
                   "second" (inl "response2")) (PStr "second") ∅).2 =
    Ok (mock_response "response2") ∧
  (get_response (add_response (add_response new_mock "first" (inl "response1"))
                   "second" (inl "response2")) (PStr "first") ∅).2 =
    (get_response (add_response new_mock "first" (inl "response1")) (PStr "first") ∅).2.
Proof.
  split.
  - apply (proj1 (add_response_lookup (add_response new_mock "first" (inl "response1"))
                    "second" (inl "response2") ∅)).
    repeat constructor.
  - apply (proj2 (add_response_lookup (add_response new_mock "first" (inl "response1"))
                    "second" (inl "response2") ∅)).
    discriminate.
Defined.

(** ** The history *)

Lemma after_calls_history self calls :
  call_history (after_calls self calls) = call_history self ++ (record_of <$> calls) ∧
  responses (after_calls self calls) = responses self ∧
  default_response (after_calls self calls) = default_response self.
Proof.
  revert self. induction calls as [|call calls IH]; intros self.
  - simpl. by rewrite app_nil_r.
  - specialize (IH (get_response self call.1 call.2).1).
    unfold after_calls in *. cbn [foldl].
    destruct IH as (-> & -> & ->). simpl. by rewrite <- app_assoc.
Qed.

(** After [reset], the history is exactly the calls made since, in order:
    their number is the count and the last of them the last call; the
    entries and the default response are those from before the reset. *)
Theorem history_since_reset (self : MockLLM)
    (calls : list (pyval * gmap string pyval)) :
  call_history (after_calls (reset self) calls) = record_of <$> calls ∧
  get_call_count (after_calls (reset self) calls) = length calls ∧
  get_last_call (after_calls (reset self) calls) = record_of <$> last calls ∧
  responses (after_calls (reset self) calls) = responses self ∧
  default_response (after_calls (reset self) calls) = default_response self.
Proof.
  destruct (after_calls_history (reset self) calls) as (Hh & Hr & Hd).
  simpl in Hh. unfold get_call_count, get_last_call. rewrite Hh, Hr, Hd.
  split_and!; try done.
  - by rewrite length_fmap.
  - by rewrite fmap_last.
Qed.

(** ** The LiteLLM adapter *)

(** [LiteLLMMock.completion] and [OpenAIMock.Chat.Completions.create] do
    the same to the resolver and answer with the same content, model and
    token figures. *)
Theorem litellm_agrees_with_openai (self : MockLLM)
    (messages : list (gmap string pyval)) (kwargs : gmap string pyval) :
  (litellm_completion self messages kwargs).1 = (openai_create self messages kwargs).1 ∧
  (∀ e, (litellm_completion self messages kwargs).2 = Raise e ↔
        (openai_create self messages kwargs).2 = Raise e) ∧
  (∀ l, (litellm_completion self messages kwargs).2 = Ok l →
     ∃ c, (openai_create self messages kwargs).2 = Ok c ∧
          lite_content l = choice_content c ∧ lite_model l = completion_model c ∧
          lite_total_tokens l = total_tokens c ∧
          lite_prompt_tokens l = prompt_tokens c ∧
          lite_completion_tokens l = completion_tokens c).
Proof.
  unfold litellm_completion, openai_create, openai_user_message.
  destruct (forward self _ kwargs) as [self' [response | e]]; simpl.
  - split_and!.
    + done.
    + intros e. split; discriminate.
    + intros l [= <-]. eexists. split_and!; done.
  - split_and!.
    + done.
    + intros e'. split; intros [= ->]; done.
    + done.
Qed.

Lemma litellm_agrees_with_openai_witness :
  ∃ c, (openai_create hello_world_mock hello_messages ∅).2 = Ok c ∧
       "Hi there!" = choice_content c ∧ "gpt-4" = completion_model c ∧
       100%Z = total_tokens c ∧ 50%Z = prompt_tokens c ∧ 50%Z = completion_tokens c.
Proof.
  apply (proj2 (proj2 (litellm_agrees_with_openai hello_world_mock hello_messages ∅))
           {| lite_content := "Hi there!"; lite_role := "assistant"; lite_model := "gpt-4";
              lite_total_tokens := 100; lite_prompt_tokens := 50;
              lite_completion_tokens := 50 |}).
  vm_compute. reflexivity.
Defined.

(** The two halves of the token usage never add up to more than the
    total, and they fall short of it by one token exactly when
    [tokens_used] is odd; [assert_token_count] accepts their sum against
    the total. *)
Theorem usage_halves_sum (self : MockLLM) (messages : list (gmap string pyval))
    (kwargs : gmap string pyval) (c : ChatCompletion) :
  (openai_create self messages kwargs).2 = Ok c →
  prompt_tokens c = completion_tokens c ∧
  (prompt_tokens c + completion_tokens c = total_tokens c - total_tokens c `mod` 2)%Z ∧
  ((prompt_tokens c + completion_tokens c)%Z = total_tokens c ↔
     Z.even (total_tokens c) = true) ∧
  passes (assert_token_count (prompt_tokens c + completion_tokens c) (total_tokens c)).
Proof.
  unfold openai_create.
  destruct (forward self (openai_user_message messages) kwargs) as [self' [response | e]];
    simpl; [| done].
  intros [= <-]. simpl.
  pose proof (Z.div_mod (tokens_used response) 2 ltac:(lia)) as Hdm.
  pose proof (Z.mod_pos_bound (tokens_used response) 2 ltac:(lia)) as Hb.
  split_and!.
  - done.
  - lia.
  - rewrite Zeven_mod, Z.eqb_eq. lia.
  - unfold assert_token_count. apply py_assert_passes. apply Z.leb_le. lia.
Qed.

Lemma usage_halves_sum_witness :
  passes (assert_token_count
            (prompt_tokens hello_completion + completion_tokens hello_completion)
            (total_tokens hello_completion)).
Proof.
  apply (usage_halves_sum hello_world_mock hello_messages ∅ hello_completion).
  vm_compute. reflexivity.
Defined.

(** ** The containment checks *)

(** [assert_contains] and [assert_not_contains] are complements of each
    other, the check without case is the check with case on the lowered
    strings, and the mode "contains" of [assert_agent_response] is
    [assert_contains]. *)
Theorem contains_checks_complement (output expected : string) (case_sensitive : bool) :
  (passes (assert_contains output expected case_sensitive) ↔
     raises_assertion (assert_not_contains output expected case_sensitive)) ∧
  (raises_assertion (assert_contains output expected case_sensitive) ↔
     passes (assert_not_contains output expected case_sensitive)) ∧
  assert_contains output expected false =
    assert_contains (Str.lower output) (Str.lower expected) true ∧
  assert_not_contains output expected false =
    assert_not_contains (Str.lower output) (Str.lower expected) true ∧
  assert_agent_response output expected "contains" case_sensitive =
    assert_contains output expected case_sensitive.
Proof.
  unfold assert_contains, assert_not_contains, assert_agent_response, check_contains,
    passes, raises_assertion, py_assert.
  destruct case_sensitive; simpl.
  - destruct (Str.contains expected output); simpl; split_and!; try done;
      split; try done; try (intros [? [=]]); eauto.
  - destruct (Str.contains (Str.lower expected) (Str.lower output)); simpl;
      split_and!; try done; split; try done; try (intros [? [=]]); eauto.
Qed.

(** ** The two similarity checks *)

(** When the expected text has a word, [AgentTest.assert_similarity] with
    the default score and the mode "similarity" of [assert_agent_response]
    accept the same outputs. *)
Theorem similarity_checks_agree (output expected : string) (case_sensitive : bool) :
  Str.words expected ≠ ∅ →
  (passes (assert_similarity output expected Float.f0_8) ↔
     passes (assert_agent_response output expected "similarity" case_sensitive)) ∧
  (raises_assertion (assert_similarity output expected Float.f0_8) ↔
     raises_assertion (assert_agent_response output expected "similarity" case_sensitive)).
Proof.
  intros Hne. rewrite similarity_mode. unfold assert_similarity, _calculate_similarity.
  destruct (decide (Str.words expected = ∅)) as [|_]; [done |].
  rewrite truediv_nonzero by by apply size_nonzero. simpl.
  unfold passes, raises_assertion, py_assert.
  destruct (Float.ge _ Float.f0_8); split; split; try done; try (intros [? [=]]); eauto.
Qed.

Lemma similarity_checks_agree_witness :
  passes (assert_similarity "the quick fox" "quick fox" Float.f0_8) ↔
  passes (assert_agent_response "the quick fox" "quick fox" "similarity" true).
Proof.
  apply (similarity_checks_agree "the quick fox" "quick fox" true).
  apply size_nonzero. vm_compute. discriminate.
Defined.

(** ** Lengths of lists *)

(** [assert_list_length]: "exact" holds exactly when "min" and "max" both
    hold; below zero "min" always holds and the other two never; a mode
    other than the three is a [ValueError] whatever the list; and a check
    that does not pass raises an [AssertionError]. *)
Theorem list_length_modes (items : list pyval) (expected_length : Z) :
  (passes (assert_list_length items expected_length "exact") ↔
     passes (assert_list_length items expected_length "min") ∧
     passes (assert_list_length items expected_length "max")) ∧
  (passes (assert_list_length items expected_length "min") ↔
     (expected_length ≤ Z.of_nat (length items))%Z) ∧
  (passes (assert_list_length items expected_length "max") ↔
     (Z.of_nat (length items) ≤ expected_length)%Z) ∧
  ((expected_length < 0)%Z →
     passes (assert_list_length items expected_length "min") ∧
     raises_assertion (assert_list_length items expected_length "exact") ∧
     raises_assertion (assert_list_length items expected_length "max")) ∧
  (∀ mode, mode ∈ ["exact"; "min"; "max"] →
     assertion_outcome (assert_list_length items expected_length mode)) ∧
  (∀ mode, mode ∉ ["exact"; "min"; "max"] →
     assert_list_length items expected_length mode =
       Raise (ValueError ("Unknown mode: " +:+ mode))).
Proof.
  assert (Hout : ∀ c msg, assertion_outcome (py_assert c msg)).
  { intros [] msg; [by left | right; by eexists]. }
  assert (Hmin : passes (assert_list_length items expected_length "min") ↔
                 (expected_length ≤ Z.of_nat (length items))%Z).
  { unfold assert_list_length. simpl. etrans; [apply py_assert_passes | apply Z.leb_le]. }
  assert (Hmax : passes (assert_list_length items expected_length "max") ↔
                 (Z.of_nat (length items) ≤ expected_length)%Z).
  { unfold assert_list_length. simpl. etrans; [apply py_assert_passes | apply Z.leb_le]. }
  assert (Hexact : passes (assert_list_length items expected_length "exact") ↔
                   Z.of_nat (length items) = expected_length).
  { unfold assert_list_length. simpl. etrans; [apply py_assert_passes | apply Z.eqb_eq]. }
  split_and!; try done.
  - rewrite Hexact, Hmin, Hmax. lia.
  - intros Hneg. split_and!.
    + apply Hmin. lia.
    + unfold assert_list_length. simpl. apply py_assert_raises. apply Z.eqb_neq. lia.
    + unfold assert_list_length. simpl. apply py_assert_raises. apply Z.leb_gt. lia.
  - intros mode Hin. unfold assert_list_length.
    repeat (apply elem_of_cons in Hin as [-> | Hin]); simpl; auto.
    by apply elem_of_nil in Hin.
  - intros mode Hnot. unfold assert_list_length.
    rewrite !not_elem_of_cons in Hnot. destruct Hnot as (H1 & H2 & H3 & _).
    apply String.eqb_neq in H1, H2, H3. by rewrite H1, H2, H3.
Qed.

Lemma list_length_modes_witness :
  (passes (assert_list_length [PNone] (-1) "min") ∧
   raises_assertion (assert_list_length [PNone] (-1) "exact") ∧
   raises_assertion (assert_list_length [PNone] (-1) "max")) ∧
  assert_list_length [PNone] 1 "Exact" = Raise (ValueError "Unknown mode: Exact").
Proof.
  split.
  - apply (proj1 (proj2 (proj2 (proj2 (list_length_modes [PNone] (-1)))))). lia.
  - apply (proj2 (proj2 (proj2 (proj2 (proj2 (list_length_modes [PNone] 1)))))).
    intros Hin. repeat (apply elem_of_cons in Hin as [[=] | Hin]).
    by apply elem_of_nil in Hin.
Defined.

(** ** Latency *)

Lemma SFleb_refl x : x ≠ S754_nan → SFleb x x = true.
Proof.
  intros Hx. unfold SFleb. destruct x as [s | s | | s m e]; simpl; try done.
  - by destruct s.
  - rewrite Z.compare_refl. change (PosDef.Pos.compare_cont Eq m m) with (Pos.compare m m).
    rewrite Pos.compare_refl. by destruct s.
Qed.

Lemma SFleb_trans x y z : SFleb x y = true → SFleb y z = true → SFleb x z = true.
Proof.
  unfold SFleb.
  destruct x as [s1 | s1 | | s1 m1 e1], y as [s2 | s2 | | s2 m2 e2],
    z as [s3 | s3 | | s3 m3 e3]; simpl; try done;
    try (destruct s1; try done); try (destruct s2; try done);
    try (destruct s3; try done).
  all: change (PosDef.Pos.compare_cont Eq) with Pos.compare.
  all: destruct (Z.compare_spec e1 e2); simpl; try done;
    destruct (Z.compare_spec e2 e3); simpl; try done;
    destruct (Z.compare_spec e1 e3); simpl; try done; try lia; subst.
  all: destruct (Pos.compare_spec m1 m2); simpl; try done;
    destruct (Pos.compare_spec m2 m3); simpl; try done;
    destruct (Pos.compare_spec m1 m3); simpl; try done; lia.
Qed.

(** [assert_latency]: the limit is inclusive; a duration within a limit
    is within every limit that is not smaller; a NaN on either side
    fails; and without a NaN, one of [assert_latency a b] and
    [assert_latency b a] passes. *)
Theorem latency_limit_order (duration max_seconds : spec_float) :
  (duration ≠ S754_nan → passes (assert_latency duration duration)) ∧
  (∀ larger, passes (assert_latency duration max_seconds) →
     Float.ge larger max_seconds = true →
     passes (assert_latency duration larger)) ∧
  raises_assertion (assert_latency S754_nan max_seconds) ∧
  raises_assertion (assert_latency duration S754_nan) ∧
  (duration ≠ S754_nan → max_seconds ≠ S754_nan →
     passes (assert_latency duration max_seconds) ∨
     passes (assert_latency max_seconds duration)) ∧
  assertion_outcome (assert_latency duration max_seconds).
Proof.
  unfold assert_latency, Float.ge. split_and!.
  - intros Hd. apply py_assert_passes. by apply SFleb_refl.
  - intros larger H1 H2. apply py_assert_passes. apply py_assert_passes in H1.
    by apply SFleb_trans with max_seconds.
  - by apply py_assert_raises.
  - apply py_assert_raises. by destruct duration.
  - intros Hd Hm. rewrite !py_assert_passes. unfold SFleb.
    destruct duration as [s1 | s1 | | s1 m1 e1], max_seconds as [s2 | s2 | | s2 m2 e2];
      simpl; try done; try (destruct s1; auto; fail); try (destruct s2; auto; fail);
      try (destruct s1, s2; auto; fail).
    change (PosDef.Pos.compare_cont Eq) with Pos.compare.
    rewrite (Z.compare_antisym e1 e2), (Pos.compare_antisym m1 m2).
    destruct s1, s2; auto; destruct (e1 ?= e2)%Z; simpl; auto;
      destruct (m1 ?= m2)%positive; simpl; auto.
  - destruct (SFleb duration max_seconds); [by left | right; by eexists].
Qed.

Lemma latency_limit_order_witness :
  passes (assert_latency Float.half Float.half) ∧
  passes (assert_latency Float.half Float.one).
Proof.
  split.
  - apply (proj1 (latency_limit_order Float.half Float.half)). discriminate.
  - apply (proj1 (proj2 (latency_limit_order Float.half Float.half)) Float.one).
    + apply (proj1 (latency_limit_order Float.half Float.half)). discriminate.
    + reflexivity.
Defined.

(** ** Formats *)

Lemma prefix_char c x s :
  String.prefix (String c "") (String x s) = Ascii.eqb x c.
Proof.
  simpl. destruct (ascii_dec c x) as [-> | Hne].
  - destruct s; by rewrite Ascii.eqb_refl.
  - symmetry. apply Ascii.eqb_neq. congruence.
Qed.

Lemma contains_char c s : Str.contains (String c "") s = PyStr.has_char c s.
Proof.
  induction s as [|x s IH]; [done |].
  change (Str.contains (String c "") (String x s))
    with (String.prefix (String c "") (String x s) || Str.contains (String c "") s).
  by rewrite prefix_char, IH.
Qed.

Lemma prefix_has_char c rest s :
  String.prefix (String c rest) s = true → PyStr.has_char c s = true.
Proof.
  destruct s as [|x s]; simpl; [done |].
  destruct (ascii_dec c x) as [-> | _]; [| done].
  by rewrite Ascii.eqb_refl.
Qed.

Lemma contains_has_char c rest s :
  Str.contains (String c rest) s = true → PyStr.has_char c s = true.
Proof.
  induction s as [|x s IH].
  - simpl. done.
  - change (Str.contains (String c rest) (String x s))
      with (String.prefix (String c rest) (String x s) || Str.contains (String c rest) s).
    intros [H | H]%orb_true_iff.
    + by apply prefix_has_char in H.
    + simpl. rewrite (IH H). by rewrite orb_true_r.
Qed.

(** [assert_format]: "markdown" asks for one of the characters [#], [*]
    and [-] or a code fence anywhere in the output (the marker of two
    stars adds nothing), "html" for a [<] and a [>] in any order, the
    three parsed formats for what their parser says, and any other name
    of a format, in any case, is a [ValueError]. *)
Theorem format_checks (output : string) (json_loaded : result pyval)
    (yaml_error xml_error : option string) :
  (passes (assert_format output "markdown" json_loaded yaml_error xml_error) ↔
     PyStr.has_char "#" output = true ∨ PyStr.has_char "*" output = true ∨
     PyStr.has_char "-" output = true ∨ Str.contains "```" output = true) ∧
  (passes (assert_format output "html" json_loaded yaml_error xml_error) ↔
     PyStr.has_char "<" output = true ∧ PyStr.has_char ">" output = true) ∧
  (passes (assert_format output "json" json_loaded yaml_error xml_error) ↔
     ∃ data, json_loaded = Ok data) ∧
  (passes (assert_format output "yaml" json_loaded yaml_error xml_error) ↔
     yaml_error = None) ∧
  (passes (assert_format output "xml" json_loaded yaml_error xml_error) ↔
     xml_error = None) ∧
  (∀ format_type, format_type ∉ ["json"; "yaml"; "markdown"; "html"; "xml"] →
     assert_format output format_type json_loaded yaml_error xml_error =
       Raise (ValueError ("Unknown format: " +:+ format_type))) ∧
  (∀ format_type, format_type ∈ ["yaml"; "markdown"; "html"; "xml"] →
     assertion_outcome
       (assert_format output format_type json_loaded yaml_error xml_error)).
Proof.
  split_and!.
  - unfold assert_format. simpl. etrans; [apply py_assert_passes |].
    rewrite !contains_char. rewrite orb_false_r, !orb_true_iff. split.
    + intros [H | [H | [H | [H | H]]]]; auto.
      apply contains_has_char in H. auto.
    + intros [H | [H | [H | H]]]; auto.
  - unfold assert_format. simpl. etrans; [apply py_assert_passes |].
    by rewrite !contains_char, andb_true_iff.
  - unfold assert_format, passes. simpl. destruct json_loaded as [data | []]; split;
      try done; try (intros [? [=]]); eauto.
  - unfold assert_format, passes. simpl. by destruct yaml_error.
  - unfold assert_format, passes. simpl. by destruct xml_error.
  - intros format_type Hnot. unfold assert_format.
    rewrite !not_elem_of_cons in Hnot. destruct Hnot as (H1 & H2 & H3 & H4 & H5 & _).
    apply String.eqb_neq in H1, H2, H3, H4, H5. by rewrite H1, H2, H3, H4, H5.
  - intros format_type Hin. unfold assert_format, assertion_outcome, raises_assertion.
    repeat (apply elem_of_cons in Hin as [-> | Hin]); simpl.
    + destruct yaml_error; eauto.
    + unfold py_assert. match goal with |- context [if ?c then _ else _] => destruct c end; eauto.
    + unfold py_assert. match goal with |- context [if ?c then _ else _] => destruct c end; eauto.
    + destruct xml_error; eauto.
    + by apply elem_of_nil in Hin.
Qed.

Lemma format_checks_witness :
  assert_format "plain" "Markdown" (Ok PNone) None None =
    Raise (ValueError "Unknown format: Markdown").
Proof.
  apply (proj1 (proj2 (proj2 (proj2 (proj2 (proj2
           (format_checks "plain" (Ok PNone) None None))))))).
  intros Hin. repeat (apply elem_of_cons in Hin as [[=] | Hin]).
  by apply elem_of_nil in Hin.
Defined.

(** ** Lists of items against a pattern *)

Lemma re_search_compiled pattern r item :
  Re.compile pattern = Some r → re_search pattern item false = Ok (Re.search false r item).
Proof. unfold re_search. by intros ->. Qed.

Lemma re_search_failed pattern item ignorecase why :
  Re.parse pattern = Re.Failed why →
  re_search pattern item ignorecase =
    Raise (match why with
           | Re.Refused => ReError
           | Re.TooLarge => OverflowError
           | Re.Beyond => Unmodelled
           end).
Proof.
  intros H. unfold re_search, Re.compile, Re.raised. rewrite H. by destruct why.
Qed.

Lemma all_items_from_spec pattern r items i :
  Re.compile pattern = Some r →
  (all_items_from i items pattern = Ok () ↔
     Forall (λ item, Re.search false r item = true) items) ∧
  (∀ pre item post,
     items = pre ++ item :: post →
     Forall (λ item, Re.search false r item = true) pre →
     Re.search false r item = false →
     all_items_from i items pattern =
       Raise (AssertionError (no_match_message (i + length pre) pattern item))).
Proof.
  intros Hc. revert i. induction items as [|x items IH]; intros i.
  - split; [done |]. intros [] ???; done.
  - destruct (IH (S i)) as [IH1 IH2]. simpl. rewrite (re_search_compiled _ _ _ Hc). simpl.
    destruct (Re.search false r x) eqn:Hx; simpl.
    + split.
      * rewrite IH1. split; [by constructor | by inversion 1].
      * intros [|y pre] item post; simpl.
        -- intros [= <- <-] _ Hitem. congruence.
        -- intros [= <- ->] Hpre Hitem. inversion Hpre; subst.
           rewrite (IH2 pre item post eq_refl) by done.
           do 3 f_equal. lia.
    + split.
      * split; [done |]. inversion 1; congruence.
      * intros [|y pre] item post; simpl.
        -- intros [= <- <-] _ _. by rewrite Nat.add_0_r.
        -- intros [= <- ->] Hpre _. inversion Hpre; congruence.
Qed.

Lemma any_item_spec pattern r items :
  Re.compile pattern = Some r →
  any_item items pattern =
    Ok (bool_decide (Exists (λ item, Re.search false r item = true) items)).
Proof.
  intros Hc. induction items as [|x items IH]; cbn [any_item].
  - rewrite bool_decide_eq_false_2; [done |]. by inversion 1.
  - rewrite (re_search_compiled _ _ _ Hc). cbn [mbind result_bind].
    destruct (Re.search false r x) eqn:Hx.
    + rewrite bool_decide_eq_true_2; [done |]. by left.
    + rewrite IH. f_equal. apply bool_decide_ext. split; [by right |].
      inversion 1; [congruence | done].
Qed.

(** With a pattern that compiles, [assert_all_items_match] passes when
    the pattern is found somewhere in every item and otherwise raises an
    [AssertionError] that names the first item without a match and its
    index; [assert_any_item_matches] passes when the pattern is found in
    some item and otherwise raises an [AssertionError] that shows the
    list. *)
Theorem items_match_pattern (items : list string) (pattern : string) (r : Re.regex) :
  Re.compile pattern = Some r →
  (passes (assert_all_items_match items pattern) ↔
     Forall (Re.matches_somewhere false r) items) ∧
  (∀ pre item post,
     items = pre ++ item :: post →
     Forall (Re.matches_somewhere false r) pre →
     ¬ Re.matches_somewhere false r item →
     assert_all_items_match items pattern =
       Raise (AssertionError (no_match_message (length pre) pattern item))) ∧
  (passes (assert_any_item_matches items pattern) ↔
     Exists (Re.matches_somewhere false r) items) ∧
  (¬ Exists (Re.matches_somewhere false r) items →
     assert_any_item_matches items pattern =
       Raise (AssertionError
         [Text ("No item matches pattern " +:+ quoted pattern +:+ " in list: "
                +:+ PyStr.repr_list items)])) ∧
  (items ≠ [] → passes (assert_all_items_match items pattern) →
     passes (assert_any_item_matches items pattern)).
Proof.
  intros Hc.
  assert (Hall : ∀ l, Forall (λ item, Re.search false r item = true) l ↔
                      Forall (Re.matches_somewhere false r) l).
  { intros l. apply Forall_iff. intros x. apply search_spec. }
  assert (Hex : Exists (λ item, Re.search false r item = true) items ↔
                Exists (Re.matches_somewhere false r) items).
  { rewrite !Exists_exists. split; intros (x & Hx & H); exists x; split; try done;
      by apply search_spec. }
  destruct (all_items_from_spec pattern r items 0 Hc) as [H1 H2].
  assert (Hany : passes (assert_any_item_matches items pattern) ↔
                 Exists (Re.matches_somewhere false r) items).
  { unfold assert_any_item_matches, passes. rewrite (any_item_spec _ _ _ Hc). simpl.
    rewrite <- Hex. case_bool_decide; split; done. }
  split_and!.
  - unfold assert_all_items_match, passes. by rewrite H1, Hall.
  - intros pre item post -> Hpre Hitem. unfold assert_all_items_match.
    apply (H2 pre item post eq_refl).
    + by apply Hall.
    + rewrite <- search_spec in Hitem. by destruct (Re.search false r item).
  - done.
  - intros Hno. unfold assert_any_item_matches. rewrite (any_item_spec _ _ _ Hc). simpl.
    rewrite bool_decide_eq_false_2; [done |]. by rewrite Hex.
  - intros Hne Hpass. apply Hany.
    unfold assert_all_items_match, passes in Hpass. rewrite H1, Hall in Hpass.
    destruct items as [|x items]; [done |]. left. by inversion Hpass.
Qed.

Lemma items_match_pattern_witness :
  ∃ r, Re.compile "\d+" = Some r ∧
    assert_all_items_match ["a1"; "b"; "c3"] "\d+" =
      Raise (AssertionError (no_match_message 1 "\d+" "b")).
Proof.
  destruct (Re.compile "\d+") as [r|] eqn:Hc; [| vm_compute in Hc; discriminate].
  exists r. split; [done |].
  apply (proj1 (proj2 (items_match_pattern ["a1"; "b"; "c3"] "\d+" r Hc)) ["a1"] "b" ["c3"]).
  - reflexivity.
  - constructor; [| constructor]. apply search_spec.
    injection Hc as <-. vm_compute. reflexivity.
  - rewrite <- search_spec. injection Hc as <-. vm_compute. discriminate.
Defined.

(** On an empty list neither check looks at the pattern: the first
    passes and the second raises an [AssertionError], whatever the
    pattern is; on a list with an item, a pattern that [re] refuses makes
    both raise [re.error], and a repetition count that is too large makes
    both raise an [OverflowError]. *)
Theorem items_edge_cases (pattern : string) :
  passes (assert_all_items_match [] pattern) ∧
  assert_any_item_matches [] pattern =
    Raise (AssertionError
      [Text ("No item matches pattern " +:+ quoted pattern +:+ " in list: []")]) ∧
  (Re.parse pattern = Re.Failed Re.Refused → ∀ item rest,
     assert_all_items_match (item :: rest) pattern = Raise ReError ∧
     assert_any_item_matches (item :: rest) pattern = Raise ReError) ∧
  (Re.parse pattern = Re.Failed Re.TooLarge → ∀ item rest,
     assert_all_items_match (item :: rest) pattern = Raise OverflowError ∧
     assert_any_item_matches (item :: rest) pattern = Raise OverflowError).
Proof.
  split_and!; [done | done | |].
  - intros Hc item rest. unfold assert_all_items_match, assert_any_item_matches. simpl.
    by rewrite (re_search_failed _ _ _ _ Hc).
  - intros Hc item rest. unfold assert_all_items_match, assert_any_item_matches. simpl.
    by rewrite (re_search_failed _ _ _ _ Hc).
Qed.

Lemma items_edge_cases_witness :
  (assert_all_items_match ["abc"] "(" = Raise ReError ∧
   assert_any_item_matches ["abc"] "(" = Raise ReError) ∧
  (assert_all_items_match ["abc"] "a{4294967295}" = Raise OverflowError ∧
   assert_any_item_matches ["abc"] "a{4294967295}" = Raise OverflowError).
Proof.
  split.
  - apply (proj1 (proj2 (proj2 (items_edge_cases "(")))). vm_compute. reflexivity.
  - apply (proj2 (proj2 (proj2 (items_edge_cases "a{4294967295}")))).
    vm_compute. reflexivity.
Defined.

(** ** Types in a schema *)

(** What the type check of [_validate_schema] lets through: a boolean
    where an integer or a number is asked for, any value where the name
    of the type is none of the seven known ones, the elements of an array
    and, where the data is no object, everything listed under
    "properties" and "required". *)
Theorem schema_type_edges :
  (∀ b properties required,
     passes (_validate_schema (PBool b) (Schema (Some "integer") properties required)) ∧
     passes (_validate_schema (PBool b) (Schema (Some "number") properties required))) ∧
  (∀ n properties required,
     raises_assertion
       (_validate_schema (PInt n) (Schema (Some "boolean") properties required))) ∧
  (∀ expected_type data,
     expected_type ∉ ["object"; "array"; "string"; "number"; "integer"; "boolean"; "null"] →
     passes (_validate_schema data (Schema (Some expected_type) None None))) ∧
  (∀ items properties required,
     passes (_validate_schema (PList items) (Schema (Some "array") properties required))) ∧
  (∀ data properties required,
     (∀ d, data ≠ PDict d) →
     passes (_validate_schema data (Schema None properties required))) ∧
  (∀ d required,
     passes (_validate_schema (PDict d) (Schema (Some "object") None required))).
Proof.
  split_and!.
  - intros b properties required. split; simpl; by destruct properties.
  - intros n properties required. simpl. by eexists.
  - intros expected_type data Hnot.
    rewrite !not_elem_of_cons in Hnot.
    destruct Hnot as (H1 & H2 & H3 & H4 & H5 & H6 & H7 & _).
    apply String.eqb_neq in H1, H2, H3, H4, H5, H6, H7.
    unfold passes. simpl. unfold check_type, instance_of.
    by rewrite H1, H2, H3, H4, H5, H6, H7.
  - intros items properties required. unfold passes. simpl. by destruct properties.
  - intros data properties required Hd. unfold passes. simpl.
    destruct properties, data; try done. by destruct (Hd d).
  - intros d required. done.
Qed.

Lemma schema_type_edges_witness :
  passes (_validate_schema (PStr "abc") (Schema (Some "text") None None)) ∧
  passes (_validate_schema (PStr "abc")
            (Schema None (Some [("name", Schema (Some "string") None None)])
               (Some ["name"]))).
Proof.
  split.
  - apply (proj1 (proj2 (proj2 schema_type_edges)) "text" (PStr "abc")).
    intros Hin. repeat (apply elem_of_cons in Hin as [[=] | Hin]).
    by apply elem_of_nil in Hin.
  - apply (proj1 (proj2 (proj2 (proj2 (proj2 schema_type_edges)))) (PStr "abc")).
    discriminate.
Defined.

(** ** Characters a match must read *)

Lemma string_app_assoc (a b c : string) : (a +:+ b) +:+ c = a +:+ (b +:+ c).
Proof. induction a as [|x a IH]; [done |]. by rewrite !append_cons, IH. Qed.

Lemma any_char_app ok a b : any_char ok (a +:+ b) = any_char ok a || any_char ok b.
Proof.
  induction a as [|x a IH]; [done |].
  rewrite append_cons. simpl. by rewrite IH, orb_assoc.
Qed.

Lemma every_char_spec ok : every_char ok = true → ∀ c, ok c = true.
Proof.
  unfold every_char, all_chars. rewrite forallb_forall. intros H c.
  apply H. rewrite <- (ascii_nat_embedding c). apply in_map, in_seq.
  pose proof (nat_ascii_bounded c). lia.
Qed.

Lemma matches_reads ic ok r p q :
  Re.Matches ic r p q →
  ∃ w, p.2 = w +:+ q.2 ∧ (reads_one_of ic ok r = true → any_char ok w = true).
Proof.
  induction 1 as [p | c x prev s Hx | x prev s Hx | neg items x prev s Hx
                 | a b p q r _ [w1 [E1 R1]] _ [w2 [E2 R2]]
                 | a b p q _ [w [E R]] | a b p q _ [w [E R]]
                 | a p | a p q r _ [w1 [E1 _]] _ [w2 [E2 _]]
                 | p _ | p _ | neg p _];
    simpl reads_one_of.
  - by exists "".
  - exists (String x ""). split; [done |]. intros Hall.
    apply every_char_spec with (c := x) in Hall. rewrite Hx in Hall. simpl in *.
    by rewrite Hall.
  - exists (String x ""). split; [done |]. intros Hall.
    apply every_char_spec with (c := x) in Hall.
    apply Ascii.eqb_neq in Hx. rewrite Hx in Hall. simpl in *. by rewrite Hall.
  - exists (String x ""). split; [done |]. intros Hall.
    apply every_char_spec with (c := x) in Hall. rewrite Hx in Hall. simpl in *.
    by rewrite Hall.
  - exists (w1 +:+ w2). split.
    + by rewrite E1, E2, string_app_assoc.
    + rewrite any_char_app. intros [H | H]%orb_true_iff.
      * by rewrite R1.
      * rewrite R2 by done. apply orb_true_r.
  - exists w. split; [done |]. intros [H _]%andb_true_iff. auto.
  - exists w. split; [done |]. intros [_ H]%andb_true_iff. auto.
  - by exists "".
  - exists (w1 +:+ w2). split; [| done]. by rewrite E1, E2, string_app_assoc.
  - by exists "".
  - by exists "".
  - by exists "".
Qed.

Lemma search_reads ic ok r s :
  reads_one_of ic ok r = true → Re.search ic r s = true → any_char ok s = true.
Proof.
  intros Hr (pre & post & q & -> & Hm)%search_spec.
  destruct (matches_reads ic ok r _ _ Hm) as (w & E & R). simpl in E.
  rewrite E, !any_char_app, (R Hr). by rewrite orb_true_r.
Qed.

Lemma any_char_has c s : any_char (λ x, Ascii.eqb x c) s = PyStr.has_char c s.
Proof. induction s as [|x s IH]; [done |]. simpl. by rewrite IH. Qed.

Lemma pii_patterns_read name pattern r :
  (name, pattern) ∈ pii_patterns → Re.compile pattern = Some r →
  reads_one_of false
    (if String.eqb name "email" then (λ x, Ascii.eqb x "@") else Char.is_digit) r = true.
Proof.
  intros Hin Hc. unfold pii_patterns in Hin.
  repeat (apply elem_of_cons in Hin as [[= -> ->] | Hin]);
    [| | | | by apply elem_of_nil in Hin].
  all: match type of Hc with Re.compile ?p = _ =>
         destruct (Re.compile p) as [r'|] eqn:E; [| discriminate] end;
    injection Hc as <-; vm_compute in E; injection E as <-; vm_compute; reflexivity.
Qed.

(** What [assert_no_pii] can never report: an e-mail address in an output
    without an [@], and a phone number, a social security number or a
    card number in an output without a decimal digit; an output with
    neither passes. *)
Theorem no_pii_needs_marks (output : string) (found_pii : list string) :
  find_pii pii_patterns output = Ok found_pii →
  (PyStr.has_char "@" output = false → "email" ∉ found_pii) ∧
  (any_char Char.is_digit output = false → ∀ name, name ∈ found_pii → name = "email") ∧
  (PyStr.has_char "@" output = false → any_char Char.is_digit output = false →
     found_pii = [] ∧ passes (assert_no_pii output)).
Proof.
  intros Hfound.
  assert (Hat : PyStr.has_char "@" output = false → "email" ∉ found_pii).
  { intros Hno Hin. apply (find_pii_spec _ _ _ Hfound) in Hin as (pattern & r & Hp & Hc & Hs).
    pose proof (pii_patterns_read _ _ _ Hp Hc) as Hr. simpl in Hr.
    apply (search_reads _ _ _ _ Hr) in Hs. rewrite any_char_has in Hs. congruence. }
  assert (Hdig : any_char Char.is_digit output = false →
                 ∀ name, name ∈ found_pii → name = "email").
  { intros Hno name Hin.
    apply (find_pii_spec _ _ _ Hfound) in Hin as (pattern & r & Hp & Hc & Hs).
    pose proof (pii_patterns_read _ _ _ Hp Hc) as Hr.
    destruct (String.eqb_spec name "email") as [-> | _]; [done |].
    apply (search_reads _ _ _ _ Hr) in Hs. congruence. }
  split_and!; [done | done |].
  intros H1 H2.
  assert (found_pii = []) as ->.
  { destruct found_pii as [|name rest]; [done |].
    destruct (Hat H1). rewrite <- (Hdig H2 name) by by left. by left. }
  split; [done |]. unfold assert_no_pii, passes. by rewrite Hfound.
Qed.

Lemma no_pii_needs_marks_witness :
  passes (assert_no_pii "Call me maybe, or write to me").
Proof.
  assert (Hf : find_pii pii_patterns "Call me maybe, or write to me" = Ok [])
    by (vm_compute; reflexivity).
  apply (no_pii_needs_marks "Call me maybe, or write to me" [] Hf); reflexivity.
Defined.

(** ** Escaping for XML *)

Lemma string_length_app (a b : string) :
  String.length (a +:+ b) = String.length a + String.length b.
Proof. induction a as [|x a IH]; [done |]. rewrite append_cons. simpl. by rewrite IH. Qed.

Lemma map_chars_app f a b : map_chars f (a +:+ b) = map_chars f a +:+ map_chars f b.
Proof.
  induction a as [|x a IH]; [done |].
  rewrite append_cons. simpl. by rewrite IH, string_app_assoc.
Qed.

Lemma map_chars_compose f g s :
  map_chars g (map_chars f s) = map_chars (λ x, map_chars g (f x)) s.
Proof. induction s as [|x s IH]; [done |]. simpl. by rewrite map_chars_app, IH. Qed.

Lemma map_chars_ext f g s : (∀ x, f x = g x) → map_chars f s = map_chars g s.
Proof. intros H. induction s as [|x s IH]; [done |]. simpl. by rewrite H, IH. Qed.

Lemma replace_from_char c new s fuel :
  String.length s ≤ fuel →
  PyStr.replace_from fuel (String c "") new s =
    map_chars (λ x, if Ascii.eqb x c then new else String x "") s.
Proof.
  revert fuel. induction s as [|x s IH]; intros fuel Hlen.
  - by destruct fuel.
  - destruct fuel as [|n]; [simpl in Hlen; lia |].
    cbn [PyStr.replace_from map_chars]. rewrite prefix_char.
    destruct (Ascii.eqb x c).
    + simpl. rewrite IH by (simpl in Hlen; lia). done.
    + rewrite IH by (simpl in Hlen; lia). done.
Qed.

Lemma replace_char c new s :
  PyStr.replace (String c "") new s =
    map_chars (λ x, if Ascii.eqb x c then new else String x "") s.
Proof. unfold PyStr.replace. by apply replace_from_char. Qed.

Lemma escape_xml_each text : _escape_xml text = map_chars xml_entity text.
Proof.
  unfold _escape_xml. rewrite !replace_char, !map_chars_compose.
  apply map_chars_ext. intros x.
  destruct x as [[] [] [] [] [] [] [] []]; vm_compute; reflexivity.
Qed.

Lemma has_char_app c a b :
  PyStr.has_char c (a +:+ b) = PyStr.has_char c a || PyStr.has_char c b.
Proof.
  induction a as [|x a IH]; [done |].
  rewrite append_cons. simpl. by rewrite IH, orb_assoc.
Qed.

Lemma has_char_map_chars c f s :
  (∀ x, PyStr.has_char c (f x) = false) → PyStr.has_char c (map_chars f s) = false.
Proof.
  intros H. induction s as [|x s IH]; [done |]. simpl. by rewrite has_char_app, H, IH.
Qed.

Lemma map_chars_length text :
  String.length text ≤ String.length (map_chars xml_entity text) ≤ 6 * String.length text.
Proof.
  induction text as [|x text IH]; [simpl; lia |].
  simpl. rewrite string_length_app.
  assert (1 ≤ String.length (xml_entity x) ≤ 6);
    [| simpl; lia].
  destruct x as [[] [] [] [] [] [] [] []]; vm_compute; lia.
Qed.

Lemma map_chars_clean text :
  any_char is_xml_special text = false → map_chars xml_entity text = text.
Proof.
  induction text as [|x text IH]; [done |]. simpl.
  intros [Hx Ht]%orb_false_iff. rewrite (IH Ht).
  unfold is_xml_special in Hx. unfold xml_entity.
  repeat (apply orb_false_iff in Hx as [Hx ?]).
  by repeat match goal with H : Ascii.eqb _ _ = false |- _ => rewrite H; clear H end.
Qed.

(** [_escape_xml] works character by character, each of the five special
    characters becoming its entity; its result holds no [<], [>] or quote
    of either kind; a text without the five special characters is left as
    it is, and the result is at most six times as long. *)
Theorem escape_xml_characters (text : string) :
  _escape_xml text = map_chars xml_entity text ∧
  PyStr.has_char "<" (_escape_xml text) = false ∧
  PyStr.has_char ">" (_escape_xml text) = false ∧
  PyStr.has_char PyStr.quote2 (_escape_xml text) = false ∧
  PyStr.has_char "'" (_escape_xml text) = false ∧
  (any_char is_xml_special text = false → _escape_xml text = text) ∧
  (String.length text ≤ String.length (_escape_xml text) ≤ 6 * String.length text)%nat.
Proof.
  rewrite !escape_xml_each. split_and!; try done.
  1-4: apply has_char_map_chars; intros x;
    destruct x as [[] [] [] [] [] [] [] []]; vm_compute; reflexivity.
  - apply map_chars_clean.
  - apply map_chars_length.
  - apply map_chars_length.
Qed.

Lemma escape_xml_characters_witness :
  _escape_xml "expected 4, got 5" = "expected 4, got 5".
Proof.
  apply (proj1 (proj2 (proj2 (proj2 (proj2 (proj2
           (escape_xml_characters "expected 4, got 5"))))))).
  reflexivity.
Defined.

Lemma map_chars_injective a b :
  map_chars xml_entity a = map_chars xml_entity b → a = b.
Proof.
  revert b. induction a as [|x a IH]; intros [|y b]; simpl.
  - done.
  - intros H. apply (f_equal String.length) in H. rewrite string_length_app in H.
    assert (1 ≤ String.length (xml_entity y))
      by (destruct y as [[] [] [] [] [] [] [] []]; vm_compute; lia).
    simpl in H. lia.
  - intros H. apply (f_equal String.length) in H. rewrite string_length_app in H.
    assert (1 ≤ String.length (xml_entity x))
      by (destruct x as [[] [] [] [] [] [] [] []]; vm_compute; lia).
    simpl in H. lia.
  - unfold xml_entity.
    destruct (Ascii.eqb_spec x "&"), (Ascii.eqb_spec x "<"), (Ascii.eqb_spec x ">"),
      (Ascii.eqb_spec x PyStr.quote2), (Ascii.eqb_spec x "'"); subst; try done;
    destruct (Ascii.eqb_spec y "&"), (Ascii.eqb_spec y "<"), (Ascii.eqb_spec y ">"),
      (Ascii.eqb_spec y PyStr.quote2), (Ascii.eqb_spec y "'"); subst; try done;
    rewrite ?append_cons, ?append_nil_l; intros [=]; subst; try done;
    f_equal; by apply IH.
Qed.

Lemma map_chars_fixed text :
  map_chars xml_entity text = text → any_char is_xml_special text = false.
Proof.
  induction text as [|x text IH]; [done |]. simpl.
  pose proof (map_chars_length text) as Hlen.
  unfold xml_entity, is_xml_special.
  destruct (Ascii.eqb_spec x "&"), (Ascii.eqb_spec x "<"), (Ascii.eqb_spec x ">"),
    (Ascii.eqb_spec x PyStr.quote2), (Ascii.eqb_spec x "'"); subst; try done;
    rewrite ?append_cons, ?append_nil_l; intros H; try discriminate H; injection H as H.
  - fold xml_entity in H. apply (f_equal String.length) in H. simpl in H. lia.
  - simpl. by apply IH.
Qed.

(** [_escape_xml] loses nothing: two texts with the same escaped form are
    the same text. It is not idempotent: escaping twice gives the same as
    escaping once only for a text without any of the five special
    characters. *)
Theorem escape_xml_injective (a b : string) :
  (_escape_xml a = _escape_xml b → a = b) ∧
  (_escape_xml (_escape_xml a) = _escape_xml a ↔ any_char is_xml_special a = false).
Proof.
  rewrite !escape_xml_each. split.
  - apply map_chars_injective.
  - split.
    + intros H. apply map_chars_injective in H. by apply map_chars_fixed.
    + intros H. by rewrite (map_chars_clean a H), (map_chars_clean a H).
Qed.

Lemma escape_xml_injective_witness :
  "a < b" = "a < b" ∧ _escape_xml (_escape_xml "a < b") ≠ _escape_xml "a < b".
Proof.
  split.
  - apply (proj1 (escape_xml_injective "a < b" "a < b")). reflexivity.
  - intros H. apply (proj2 (escape_xml_injective "a < b" "a < b")) in H. discriminate.
Defined.

(** ** The Details cell of the console report *)

Lemma length_take n s : String.length (PyStr.take n s) = min n (String.length s).
Proof.
  revert s. induction n as [|n IH]; intros [|x s]; simpl; try done. by rewrite IH.
Qed.

(** The Details cell is never longer than 50 characters: an error of up
    to 50 characters is shown whole, a longer one as its first 47
    characters and three dots, and no error or an empty one as "OK". *)
Theorem console_details_width (error : option string) :
  (String.length (console_details error) ≤ 50)%nat ∧
  console_details None = "OK" ∧
  console_details (Some "") = "OK" ∧
  (∀ e, error = Some e → e ≠ "" → (String.length e ≤ 50)%nat →
     console_details error = e) ∧
  (∀ e, error = Some e → (50 < String.length e)%nat →
     console_details error = PyStr.take 47 e +:+ "..." ∧
     String.length (console_details error) = 50).
Proof.
  assert (Hlong : ∀ e, (50 < String.length e)%nat →
            console_details (Some e) = PyStr.take 47 e +:+ "..." ∧
            String.length (console_details (Some e)) = 50).
  { intros e He. unfold console_details.
    destruct (String.eqb_spec e "") as [-> | _]; [simpl in He; lia |].
    apply Nat.ltb_lt in He as He'. rewrite He'.
    split; [done |]. rewrite string_length_app, length_take, Nat.min_l by lia. done. }
  assert (Hshort : ∀ e, e ≠ "" → (String.length e ≤ 50)%nat →
            console_details (Some e) = e).
  { intros e Hne He. unfold console_details.
    destruct (String.eqb_spec e "") as [-> | _]; [done |].
    apply Nat.ltb_ge in He as He'. by rewrite He'. }
  split_and!.
  - destruct error as [e |]; [| simpl; lia].
    destruct (String.eqb_spec e "") as [-> | Hne]; [simpl; lia |].
    destruct (Nat.le_gt_cases (String.length e) 50) as [Hle | Hgt].
    + by rewrite Hshort.
    + destruct (Hlong e Hgt) as [_ ->]. lia.
  - done.
  - done.
  - intros e -> Hne He. by apply Hshort.
  - intros e -> He. by apply Hlong.
Qed.

Lemma console_details_width_witness :
  console_details (Some "Expected 'paris' not found in output.") =
    "Expected 'paris' not found in output.".
Proof.
  apply (proj1 (proj2 (proj2 (proj2
           (console_details_width (Some "Expected 'paris' not found in output."))))) _ eq_refl).
  - discriminate.
  - simpl. lia.
Defined.

(** ** Running one test *)

Lemma run_test_returns results name doc inv new r :
  run_test results name doc inv = (new, Returns r) →
  new = results ++ [r] ∧ test_name r = name ∧
  (status r = "passed" ∨ status r = "failed").
Proof.
  unfold run_test.
  destruct (teardown_out inv); [| done].
  destruct (attempt inv) as [output | [] text]; intros [= <- <-]; auto.
Qed.

(** [AgentTest.run_test]: a result that is returned is also the one
    result added to [self.results]; it is "passed" exactly when setup and
    test returned, and then carries no error; an [AssertionError] gives
    "failed" with its text and another [Exception] "failed" with the text
    after "Unexpected error: ". When [teardown] raises, or the test
    raises something that is no [Exception], the call raises and nothing
    is recorded, whatever the test did. *)
Theorem run_test_outcome (results : list TestResult) (name : string)
    (doc : option string) (inv : invocation) :
  (∀ new r, run_test results name doc inv = (new, Returns r) →
     new = results ++ [r] ∧ test_name r = name ∧
     duration r = elapsed inv ∧
     ((∃ output, attempt inv = Returns output ∧ status r = "passed" ∧
                 error r = None ∧ agent_output r = output) ∨
      (∃ text, attempt inv = Raises KAssertion text ∧ status r = "failed" ∧
               error r = Some text ∧ agent_output r = PNone) ∨
      (∃ text, attempt inv = Raises KException text ∧ status r = "failed" ∧
               error r = Some ("Unexpected error: " +:+ text) ∧
               agent_output r = PNone))) ∧
  (∀ new kind text, run_test results name doc inv = (new, Raises kind text) →
     new = results ∧
     (teardown_out inv = Raises kind text ∨
      (kind = KBase ∧ attempt inv = Raises KBase text))) ∧
  (∀ kind text, teardown_out inv = Raises kind text →
     run_test results name doc inv = (results, Raises kind text)) ∧
  (∀ kind text, setup_out inv = Raises kind text → attempt inv = Raises kind text).
Proof.
  unfold run_test. split_and!.
  - intros new r. destruct (teardown_out inv); [| done].
    destruct (attempt inv) as [output | [] text]; intros [= <- <-]; simpl;
      split_and!; try done.
    + left. by exists output.
    + right. left. by exists text.
    + right. right. by exists text.
  - intros new kind text. destruct (teardown_out inv) as [| k t].
    + destruct (attempt inv) as [output | [] t]; intros [= <- <- <-]. auto.
    + intros [= <- <- <-]. auto.
  - by intros kind text ->.
  - unfold attempt. by intros kind text ->.
Qed.

Lemma run_test_outcome_witness :
  run_test [] "test_x" None
    {| setup_out := Returns (); body_out := Returns (PStr "fine");
       teardown_out := Raises KException "boom";
       elapsed := Float.zero; stamp := "" |} = ([], Raises KException "boom").
Proof.
  apply (proj1 (proj2 (proj2 (run_test_outcome [] "test_x" None
           {| setup_out := Returns (); body_out := Returns (PStr "fine");
              teardown_out := Raises KException "boom";
              elapsed := Float.zero; stamp := "" |}))) KException "boom").
  reflexivity.
Defined.

(** ** Running a class *)

Lemma filter_ran (l : list TestResult) :
  Forall (λ r, status r = "passed" ∨ status r = "failed") l →
  filter (λ r, status r ≠ "skipped") l = l.
Proof.
  induction 1 as [|r l Hr _ IH]; [done |].
  rewrite filter_cons_True, IH; [done |]. by destruct Hr as [-> | ->].
Qed.

Lemma ran_known (l : list TestResult) :
  Forall (λ r, status r = "passed" ∨ status r = "failed") l → Forall known_status l.
Proof.
  intros H. eapply Forall_impl; [exact H |].
  unfold known_status. intros r [Hr | Hr]; auto.
Qed.

Lemma run_parametrized_spec m sets : ∀ instance results instance' out,
  run_parametrized instance m sets results = (instance', Returns out) →
  ∃ new, out = results ++ new ∧
    test_name <$> new = replicate (length sets) "<lambda>" ∧
    Forall (λ r, status r = "passed" ∨ status r = "failed") new ∧
    instance' = instance ++ new.
Proof.
  induction sets as [|params sets IH]; intros instance results instance' out; simpl.
  - intros [= <- <-]. exists []. by rewrite !app_nil_r.
  - destruct (run_test instance "<lambda>" None (invoke m (Some params)))
      as [inst1 [r | kind text]] eqn:Hrun; [| done].
    apply run_test_returns in Hrun as (-> & Hname & Hstatus).
    intros (new & -> & Hnames & Hall & ->)%IH.
    exists (r :: new). rewrite <- !app_assoc, fmap_cons, Hname, Hnames.
    split_and!; try done. by constructor.
Qed.

Lemma run_methods_spec methods : ∀ instance results instance' out,
  run_methods instance methods results = (instance', Returns out) →
  ∃ new, out = results ++ new ∧
    test_name <$> new = concat (names_due <$> methods) ∧
    Forall known_status new ∧
    instance' = instance ++ filter (λ r, status r ≠ "skipped") new.
Proof.
  induction methods as [|m methods IH]; intros instance results instance' out; simpl.
  - intros [= <- <-]. exists []. by rewrite !app_nil_r.
  - unfold names_due. destruct (_is_agent_test m); [| by apply IH].
    destruct (_skip_reason m) as [reason |].
    + intros (new & -> & Hnames & Hall & ->)%IH.
      exists (skipped_result m reason :: new).
      rewrite <- !app_assoc, fmap_cons, Hnames, filter_cons_False by (simpl; auto).
      split_and!; try done.
      constructor; [| done]. right. by right.
    + destruct (_parametrize m) as [sets |].
      * destruct (run_parametrized instance m sets results)
          as [inst1 [results1 | kind text]] eqn:Hrun; [| done].
        apply run_parametrized_spec in Hrun as (new1 & -> & Hn1 & Hall1 & ->).
        intros (new & -> & Hnames & Hall & ->)%IH.
        exists (new1 ++ new). rewrite <- !app_assoc, fmap_app, filter_app.
        rewrite Hn1, Hnames, (filter_ran new1 Hall1). split_and!; try done.
        apply Forall_app. split; [by apply ran_known | done].
      * destruct (run_test instance (method_name m) (method_doc m) (invoke m None))
          as [inst1 [r | kind text]] eqn:Hrun; [| done].
        apply run_test_returns in Hrun as (-> & Hname & Hstatus).
        intros (new & -> & Hnames & Hall & ->)%IH.
        exists (r :: new). rewrite <- !app_assoc, fmap_cons, Hname, Hnames.
        rewrite filter_cons_True by (by destruct Hstatus as [-> | ->]).
        split_and!; try done. constructor; [| done].
        unfold known_status. destruct Hstatus; auto.
Qed.

Lemma count_status_app s (a b : list TestResult) :
  count_status s (a ++ b) = count_status s a + count_status s b.
Proof. unfold count_status. by rewrite filter_app, length_app. Qed.

Lemma count_known (l : list TestResult) :
  Forall known_status l →
  length l = count_status "passed" l + count_status "failed" l + count_status "skipped" l.
Proof.
  unfold count_status. induction 1 as [|r l Hr _ IH]; [done |].
  rewrite !filter_cons. simpl. destruct Hr as [Hr | [Hr | Hr]]; rewrite Hr;
    repeat case_decide; try done; simpl; lia.
Qed.

Lemma run_test_class_known instance attributes instance' results :
  _run_test_class instance attributes = (instance', Returns results) →
  Forall known_status results.
Proof.
  unfold _run_test_class. by intros (new & -> & _ & Hall & _)%run_methods_spec.
Qed.

(** [_run_test_class] takes the callable attributes whose name in
    [dir()] begins with [test_] and that carry the mark of [test_agent],
    in the order of [dir()]: a skipped one gives one result under its
    [__name__], a parametrized one a result per parameter set under the
    name of the [lambda], another one a result under its [__name__],
    which need not be the name of the attribute. Every result is passed,
    failed or skipped, so the three counts add up to the number of
    results, and the instance has recorded the results that are not
    skipped. *)
Theorem run_test_class_results (instance : list TestResult)
    (attributes : list (string * attribute)) (instance' results : list TestResult) :
  _run_test_class instance attributes = (instance', Returns results) →
  test_name <$> results = concat (names_due <$> test_methods attributes) ∧
  (∀ m, m ∈ test_methods attributes ↔
        ∃ name, (name, Callable m) ∈ attributes ∧ String.prefix "test_" name = true) ∧
  Forall known_status results ∧
  length results =
    count_status "passed" results + count_status "failed" results +
    count_status "skipped" results ∧
  instance' = instance ++ filter (λ r, status r ≠ "skipped") results.
Proof.
  unfold _run_test_class. intros (new & -> & Hnames & Hall & ->)%run_methods_spec.
  simpl. split_and!; try done; [| by apply count_known].
  intros m. unfold test_methods. rewrite list_elem_of_omap. split.
  - intros ([name a] & Hin & Hm). simpl in Hm.
    destruct (String.prefix "test_" name) eqn:Hp; [| done].
    destruct a as [m' | value]; [| done]. injection Hm as ->. by exists name.
  - intros (name & Hin & Hp). exists (name, Callable m). split; [done |].
    simpl. by rewrite Hp.
Qed.

Lemma run_test_class_results_witness :
  (test_name <$> sample_results = ["test_a"; "test_b"; "<lambda>"; "<lambda>"] ∧
   length sample_results =
     count_status "passed" sample_results + count_status "failed" sample_results +
     count_status "skipped" sample_results) ∧
  test_name <$> [passed_result "helper" None passing PNone] = ["helper"].
Proof.
  assert (H : _run_test_class [] sample_class =
              (filter (λ r, status r ≠ "skipped") sample_results, Returns sample_results))
    by reflexivity.
  assert (H' : _run_test_class [] alias_class =
               ([passed_result "helper" None passing PNone],
                Returns [passed_result "helper" None passing PNone]))
    by reflexivity.
  destruct (run_test_class_results [] sample_class _ sample_results H)
    as (Hnames & _ & _ & Hcount & _).
  destruct (run_test_class_results [] alias_class _ _ H') as (Hnames' & _).
  split; [split; [exact Hnames | exact Hcount] | exact Hnames'].
Defined.

(** ** Running everything *)

Lemma run_classes_spec classes : ∀ all_results p f s out p' f' s',
  run_classes classes all_results p f s = Returns (out, (p', f', s')) →
  ∃ new, out = all_results ++ new ∧ Forall known_status new ∧
    p' = p + count_status "passed" new ∧
    f' = f + count_status "failed" new ∧
    s' = s + count_status "skipped" new.
Proof.
  induction classes as [|[name attributes] classes IH];
    intros all_results p f s out p' f' s'; simpl.
  - intros [= <- <- <- <-]. exists []. rewrite app_nil_r. unfold count_status. simpl.
    split_and!; try done; lia.
  - destruct (_run_test_class [] attributes) as [instance' [results | kind text]] eqn:Hrun;
      simpl; [| done].
    apply run_test_class_known in Hrun as Hknown.
    intros (new & -> & Hall & -> & -> & ->)%IH.
    exists (results ++ new). rewrite !count_status_app, <- app_assoc.
    split_and!; try done; try lia. by apply Forall_app.
Qed.

(** The summary of [run_all]: the three counts are the numbers of
    passed, failed and skipped results in the list it returns, and they
    add up to the total. *)
Theorem run_all_summary (classes : list TestClass) (took : spec_float)
    (all_results : list TestResult) (summary : Summary) :
  run_all classes took = Returns (all_results, summary) →
  total summary = length all_results ∧
  passed summary = count_status "passed" all_results ∧
  failed summary = count_status "failed" all_results ∧
  skipped summary = count_status "skipped" all_results ∧
  total summary = passed summary + failed summary + skipped summary ∧
  summary_duration summary = took ∧
  Forall known_status all_results.
Proof.
  unfold run_all.
  destruct (run_classes classes [] 0 0 0) as [[out [[p f] s]] | kind text] eqn:Hrun; [| done].
  intros [= <- <-]. simpl.
  apply run_classes_spec in Hrun as (new & -> & Hall & -> & -> & ->). simpl.
  split_and!; try done. by apply count_known.
Qed.

Lemma run_all_summary_witness :
  total {| total := 8; passed := 6; failed := 0; skipped := 2;
           summary_duration := Float.one |} = 6 + 0 + 2.
Proof.
  assert (H : run_all [("A", sample_class); ("B", sample_class)] Float.one =
              Returns (sample_results ++ sample_results,
                       {| total := 8; passed := 6; failed := 0; skipped := 2;
                          summary_duration := Float.one |}))
    by reflexivity.
  exact (proj1 (proj2 (proj2 (proj2 (proj2 (run_all_summary _ _ _ _ H)))))).
Defined.

(** ** Running one test by name *)

Lemma list_find_replace {A} (P : A → Prop) `{!∀ x, Decision (P x)} pre x y post :
  (P x ↔ P y) →
  list_find P (pre ++ x :: post) =
    match list_find P (pre ++ y :: post) with
    | Some (i, z) => Some (i, if decide (i = length pre) then x else z)
    | None => None
    end.
Proof.
  intros Hxy. induction pre as [|w pre IH]; simpl.
  - destruct (decide (P x)) as [Hx | Hx].
    + by rewrite decide_True by by apply Hxy.
    + rewrite decide_False by (by rewrite <- Hxy).
      destruct (list_find P post) as [[i z] |]; simpl; done.
  - case_decide; [done |]. rewrite IH.
    destruct (list_find P (pre ++ y :: post)) as [[i z] |]; simpl; [| done].
    do 2 f_equal. repeat case_decide; try done; lia.
Qed.

Lemma runner_run_test_found test_class_name attributes name :
  name ≠ "" →
  runner_run_test [(test_class_name, attributes)] test_class_name (Some name) =
    match list_find (λ entry : string * attribute, entry.1 = name) attributes with
    | None => Returns ([], None)
    | Some (_, (_, Data value)) =>
        if truthy value then Raises KException (no_name_text value)
        else Returns ([], None)
    | Some (_, (_, Callable m)) =>
        match (run_test [] (method_name m) (method_doc m) (invoke m None)).2 with
        | Raises kind text => Raises kind text
        | Returns r =>
            Returns ([r],
              Some {| total := 1;
                      passed := if String.eqb (status r) "passed" then 1 else 0;
                      failed := if String.eqb (status r) "failed" then 1 else 0;
                      skipped := 0;
                      summary_duration := duration r |})
        end
    end.
Proof.
  intros Hname%String.eqb_neq. unfold runner_run_test. simpl.
  rewrite decide_True by done. simpl. by rewrite Hname.
Qed.

(** [TestRunner.run_test] for one method looks the name up among all the
    attributes of the instance. A callable is run whatever marks it
    carries, so a test marked with [skip_test] or [parametrize] gives
    the same answer as without the mark; the summary counts one test,
    passed or failed, and never a skipped one. An unknown class, a name
    that the instance does not have and an attribute that is false give
    no result and an empty summary; an attribute that is true and no
    callable makes the call raise an [AttributeError]. *)
Theorem runner_run_test_single (classes : list TestClass)
    (test_class_name test_method_name : string) :
  test_method_name ≠ "" →
  (∀ results summary,
     runner_run_test classes test_class_name (Some test_method_name) =
       Returns (results, Some summary) →
     length results = 1 ∧ total summary = 1 ∧ skipped summary = 0 ∧
     passed summary + failed summary = 1 ∧
     Forall (λ r, status r = "passed" ∨ status r = "failed") results) ∧
  (∀ pre name m post reason,
     runner_run_test
       [(test_class_name, pre ++ (name, Callable (skip_test reason m)) :: post)]
       test_class_name (Some test_method_name) =
     runner_run_test [(test_class_name, pre ++ (name, Callable m) :: post)]
       test_class_name (Some test_method_name)) ∧
  (∀ pre name m post params,
     runner_run_test
       [(test_class_name, pre ++ (name, Callable (parametrize params m)) :: post)]
       test_class_name (Some test_method_name) =
     runner_run_test [(test_class_name, pre ++ (name, Callable m) :: post)]
       test_class_name (Some test_method_name)) ∧
  (Forall (λ c : TestClass, c.1 ≠ test_class_name) classes →
     runner_run_test classes test_class_name (Some test_method_name) =
       Returns ([], None)) ∧
  (∀ attributes,
     Forall (λ entry : string * attribute, entry.1 ≠ test_method_name) attributes →
     runner_run_test [(test_class_name, attributes)] test_class_name
       (Some test_method_name) = Returns ([], None)) ∧
  (∀ pre value post,
     Forall (λ entry : string * attribute, entry.1 ≠ test_method_name) pre →
     runner_run_test
       [(test_class_name, pre ++ (test_method_name, Data value) :: post)]
       test_class_name (Some test_method_name) =
       if truthy value then Raises KException (no_name_text value)
       else Returns ([], None)).
Proof.
  intros Hname. apply String.eqb_neq in Hname as Hname'.
  assert (Hmark : ∀ (f : TestMethod → TestMethod) pre name m post,
            (∀ x, method_name (f x) = method_name x ∧ method_doc (f x) = method_doc x ∧
                  invoke (f x) = invoke x) →
            runner_run_test [(test_class_name, pre ++ (name, Callable (f m)) :: post)]
              test_class_name (Some test_method_name) =
            runner_run_test [(test_class_name, pre ++ (name, Callable m) :: post)]
              test_class_name (Some test_method_name)).
  { intros f pre name m post Hf. rewrite !runner_run_test_found by done.
    rewrite (list_find_replace _ pre (name, Callable (f m)) (name, Callable m)) by done.
    destruct (list_find _ (pre ++ (name, Callable m) :: post)) as [[i x] |] eqn:Hfind;
      [| done].
    case_decide as Hi; [| done]. subst i.
    apply list_find_Some in Hfind as (Hlook & _ & _).
    rewrite lookup_app_r, Nat.sub_diag in Hlook by lia. injection Hlook as <-.
    destruct (Hf m) as (-> & -> & ->). done. }
  split_and!.
  - intros results summary. unfold runner_run_test.
    destruct (list_find _ classes) as [[i [cn attributes]] |]; [| done].
    rewrite Hname'.
    destruct (list_find _ attributes) as [[j [name [m | value]]] |]; [| | done].
    + destruct (run_test [] (method_name m) (method_doc m) (invoke m None))
        as [new [r | kind text]] eqn:Hrun; simpl; [| done].
      apply run_test_returns in Hrun as (_ & _ & Hstatus).
      intros [= <- <-]. simpl.
      split_and!; try done.
      * by destruct Hstatus as [-> | ->].
      * by constructor.
    + by destruct (truthy value).
  - intros pre name m post reason. by apply (Hmark (skip_test reason)).
  - intros pre name m post params. by apply (Hmark (parametrize params)).
  - intros Hall. unfold runner_run_test.
    destruct (list_find _ classes) as [[i c] |] eqn:Hfind; [| done].
    apply list_find_Some in Hfind as (Hlook & Hc & _).
    apply list_elem_of_lookup_2 in Hlook.
    rewrite Forall_forall in Hall. by destruct (Hall c Hlook).
  - intros attributes Hall. rewrite runner_run_test_found by done.
    destruct (list_find _ attributes) as [[i entry] |] eqn:Hfind; [| done].
    apply list_find_Some in Hfind as (Hlook & Hm & _).
    apply list_elem_of_lookup_2 in Hlook.
    rewrite Forall_forall in Hall. by destruct (Hall entry Hlook).
  - intros pre value post Hpre. rewrite runner_run_test_found by done.
    assert (Hfind : list_find (λ entry : string * attribute, entry.1 = test_method_name)
                      (pre ++ (test_method_name, Data value) :: post) =
                    Some (length pre, (test_method_name, Data value))).
    { apply list_find_Some. split_and!.
      - rewrite lookup_app_r by done. by rewrite Nat.sub_diag.
      - done.
      - intros j entry Hlook Hj. rewrite lookup_app_l in Hlook by done.
        apply list_elem_of_lookup_2 in Hlook.
        rewrite Forall_forall in Hpre. by apply Hpre. }
    by rewrite Hfind.
Qed.

Lemma runner_run_test_single_witness :
  runner_run_test [("A", sample_class)] "A" (Some "test_b") =
    Returns ([passed_result "test_b" None passing PNone],
             Some {| total := 1; passed := 1; failed := 0; skipped := 0;
                     summary_duration := Float.zero |}) ∧
  runner_run_test [("A", alias_class)] "A" (Some "data") =
    Raises KException "'list' object has no attribute '__name__'".
Proof.
  split.
  - etrans.
    + apply (proj1 (proj2 (runner_run_test_single [("A", sample_class)] "A" "test_b"
                             ltac:(discriminate)))
               [("helper", Callable (plain_method "helper"));
                ("test_a", Callable (test_agent (plain_method "test_a")))]
               "test_b" (test_agent (plain_method "test_b"))
               [("test_c", Callable (parametrize [∅; ∅] (test_agent (plain_method "test_c"))));
                ("test_d", Callable (plain_method "test_d"))] "later").
    + reflexivity.
  - apply (proj2 (proj2 (proj2 (proj2 (proj2
             (runner_run_test_single [("A", alias_class)] "A" "data" ltac:(discriminate))))))
             [] (PList [PInt 1])
             [("helper", Callable (test_agent (plain_method "helper")));
              ("test_alias", Callable (test_agent (plain_method "helper")))]).
    constructor.
Defined.

(** ** The modes of [assert_agent_response] *)

(** The mode "equals" compares the two strings, lowered unless the case
    matters, and whatever passes it passes the mode "contains" too; a
    mode other than the four names, which are taken literally, is a
    [ValueError] whatever the output; a pattern that [re] refuses makes
    the mode "regex" raise [re.error], and a repetition count that is
    too large an [OverflowError]. *)
Theorem agent_response_modes (output expected : string) (case_sensitive : bool) :
  (passes (assert_agent_response output expected "equals" case_sensitive) ↔
     if case_sensitive then output = expected
     else Str.lower output = Str.lower expected) ∧
  (passes (assert_agent_response output expected "equals" case_sensitive) →
     passes (assert_agent_response output expected "contains" case_sensitive)) ∧
  assertion_outcome (assert_agent_response output expected "equals" case_sensitive) ∧
  (∀ mode, mode ∉ ["contains"; "equals"; "regex"; "similarity"] →
     assert_agent_response output expected mode case_sensitive =
       Raise (ValueError ("Unknown mode: " +:+ mode))) ∧
  (Re.parse expected = Re.Failed Re.Refused →
     assert_agent_response output expected "regex" case_sensitive = Raise ReError) ∧
  (Re.parse expected = Re.Failed Re.TooLarge →
     assert_agent_response output expected "regex" case_sensitive =
       Raise OverflowError).
Proof.
  assert (Heq : passes (assert_agent_response output expected "equals" case_sensitive) ↔
                if case_sensitive then output = expected
                else Str.lower output = Str.lower expected).
  { unfold assert_agent_response. destruct case_sensitive; simpl.
    - etrans; [apply py_assert_passes | apply String.eqb_eq].
    - etrans; [apply py_assert_passes | apply String.eqb_eq]. }
  split_and!.
  - done.
  - intros H%Heq. unfold assert_agent_response, check_contains.
    destruct case_sensitive; simpl; apply py_assert_passes.
    + subst. apply contains_refl.
    + rewrite H. apply contains_refl.
  - unfold assert_agent_response, assertion_outcome, raises_assertion, py_assert.
    destruct case_sensitive; simpl;
      match goal with |- context [if ?c then _ else _] => destruct c end; eauto.
  - intros mode Hnot. rewrite !not_elem_of_cons in Hnot.
    destruct Hnot as (H1 & H2 & H3 & H4 & _).
    apply String.eqb_neq in H1, H2, H3, H4.
    unfold assert_agent_response. by rewrite H1, H2, H3, H4.
  - intros Hc. unfold assert_agent_response. simpl. rewrite andb_false_r. simpl.
    by rewrite (re_search_failed _ _ _ _ Hc).
  - intros Hc. unfold assert_agent_response. simpl. rewrite andb_false_r. simpl.
    by rewrite (re_search_failed _ _ _ _ Hc).
Qed.

Lemma agent_response_modes_witness :
  passes (assert_agent_response "Paris" "PARIS" "contains" false) ∧
  assert_agent_response "Paris" "Paris" "Equals" false =
    Raise (ValueError "Unknown mode: Equals").
Proof.
  split.
  - apply (proj1 (proj2 (agent_response_modes "Paris" "PARIS" false))).
    apply (proj1 (agent_response_modes "Paris" "PARIS" false)). reflexivity.
  - apply (proj1 (proj2 (proj2 (proj2 (agent_response_modes "Paris" "Paris" false))))).
    intros Hin. repeat (apply elem_of_cons in Hin as [[=] | Hin]).
    by apply elem_of_nil in Hin.
Defined.

(** ** Running a class by name *)

(** [TestRunner.run_test] without a method name, or with an empty one,
    runs the first registered class of that name as [_run_test_class]
    does: skip marks are honoured here, and the counts of the summary add
    up to its total, the number of results. *)
Theorem runner_run_test_class (classes : list TestClass) (test_class_name : string) :
  runner_run_test classes test_class_name (Some "") =
    runner_run_test classes test_class_name None ∧
  (∀ pre attributes post,
     classes = pre ++ (test_class_name, attributes) :: post →
     Forall (λ c : TestClass, c.1 ≠ test_class_name) pre →
     ∀ results summary,
       runner_run_test classes test_class_name None = Returns (results, summary) →
       (_run_test_class [] attributes).2 = Returns results ∧
       ∃ s, summary = Some s ∧
         total s = length results ∧
         passed s = count_status "passed" results ∧
         failed s = count_status "failed" results ∧
         skipped s = count_status "skipped" results ∧
         total s = passed s + failed s + skipped s) ∧
  (Forall (λ c : TestClass, c.1 ≠ test_class_name) classes →
     runner_run_test classes test_class_name None = Returns ([], None)).
Proof.
  split_and!.
  - done.
  - intros pre attributes post -> Hpre results summary. unfold runner_run_test.
    assert (Hfind : list_find (λ c : TestClass, c.1 = test_class_name)
                      (pre ++ (test_class_name, attributes) :: post) =
                    Some (length pre, (test_class_name, attributes))).
    { apply list_find_Some. split_and!.
      - rewrite lookup_app_r by done. by rewrite Nat.sub_diag.
      - done.
      - intros j c Hlook Hj. rewrite lookup_app_l in Hlook by (unfold TestClass in *; lia).
        apply list_elem_of_lookup_2 in Hlook.
        rewrite Forall_forall in Hpre. by apply Hpre. }
    rewrite Hfind.
    destruct (_run_test_class [] attributes) as [instance' [out | kind text]] eqn:Hrun;
      simpl; [| done].
    intros [= <- <-]. split; [done |].
    eexists. split; [done |]. simpl.
    apply run_test_class_known in Hrun. split_and!; try done. by apply count_known.
  - intros Hall. unfold runner_run_test.
    destruct (list_find _ classes) as [[i c] |] eqn:Hfind; [| done].
    apply list_find_Some in Hfind as (Hlook & Hc & _).
    apply list_elem_of_lookup_2 in Hlook.
    rewrite Forall_forall in Hall. by destruct (Hall c Hlook).
Qed.

Lemma runner_run_test_class_witness :
  (_run_test_class [] sample_class).2 = Returns sample_results.
Proof.
  assert (H : runner_run_test [("A", sample_class)] "A" None =
              Returns (sample_results,
                       Some {| total := 4; passed := 3; failed := 0; skipped := 1;
                               summary_duration := sum_durations sample_results |}))
    by reflexivity.
  exact (proj1 (proj1 (proj2 (runner_run_test_class [("A", sample_class)] "A"))
                  [] sample_class [] eq_refl (Forall_nil_2 _) _ _ H)).
Defined.
